(** * Clipboard history store: a shallow embedding and its properties

    The program is a single React component, [Clipboard], whose state is a
    handful of [useState] cells and whose operations are event handlers
    that replace those cells.  The embedding keeps that shape: a record
    [State] for the cells, one function per handler, an [event] type for
    what the user can do, and [run] for a sequence of events.

    Conventions of the model.
    - A JavaScript string is a [string] whose characters are UTF-16 code
      units below 256 (the Latin-1 range).  On that range [toLowerCase],
      [trim], [length], [substring], [includes] are character-wise and are
      modelled exactly; strings with code units above 255 are outside the
      model.
    - A JavaScript number that the program uses as an integer is [NaN],
      an infinity, or [Num z] with [z : Z]; [parseInt] rounds what it
      reads to a double.  The exponent notation that [toString] gives a
      number from 10^21 on is a parameter of the saving effect.
    - [Date.now()] is an input of the handler that reads it.
    - [JSON.parse] is a host function and a parameter of the loader. *)

From Stdlib Require Import Strings.Ascii Strings.String.
From stdpp Require Import base numbers list strings pretty.

Open Scope Z_scope.

(** ** Host built-ins *)

Module JS.

(** *** Strings *)

(** WhiteSpace and LineTerminator code units below 256: TAB, LF, VT, FF,
    CR, SP and NBSP.  [String.prototype.trim] strips these. *)
Definition isWhiteSpace (c : ascii) : bool :=
  let n := nat_of_ascii c in
  ((9 <=? n) && (n <=? 13) || (n =? 32) || (n =? 160))%nat.

Fixpoint trimStart (s : string) : string :=
  match s with
  | String c r => if isWhiteSpace c then trimStart r else s
  | EmptyString => EmptyString
  end.

Fixpoint trimEnd (s : string) : string :=
  match s with
  | String c r =>
      match trimEnd r with
      | EmptyString => if isWhiteSpace c then EmptyString else String c EmptyString
      | r' => String c r'
      end
  | EmptyString => EmptyString
  end.

Definition trim (s : string) : string := trimEnd (trimStart s).

(** [s.startsWith(p)] *)
Fixpoint startsWith (p s : string) : bool :=
  match p, s with
  | EmptyString, _ => true
  | String a p', String b s' => bool_decide (a = b) && startsWith p' s'
  | String _ _, EmptyString => false
  end.

(** [s.includes(p)] *)
Fixpoint includes (s p : string) : bool :=
  startsWith p s ||
  match s with
  | String _ r => includes r p
  | EmptyString => false
  end.

(** [s.substring(0, n)] *)
Definition substring0 (n : nat) (s : string) : string := String.substring 0 n s.

(** [String.prototype.toLowerCase] on one code unit below 256: A-Z and the
    capital letters U+00C0-U+00DE (without the multiplication sign U+00D7)
    move up by 32. *)
Definition lowerChar (c : ascii) : ascii :=
  let n := nat_of_ascii c in
  if ((65 <=? n) && (n <=? 90) || (192 <=? n) && (n <=? 222) && negb (n =? 215))%nat
  then ascii_of_nat (n + 32) else c.

Fixpoint toLowerCase (s : string) : string :=
  match s with
  | String c r => String (lowerChar c) (toLowerCase r)
  | EmptyString => EmptyString
  end.

(** An empty string is falsy, every other string truthy. *)
Definition truthy (s : string) : bool := negb (String.eqb s "").

(** *** Numbers *)

Inductive number := NaN | Num (z : Z) | Inf (negative : bool).

Global Instance number_eq_dec : EqDecision number.
Proof. solve_decision. Defined.

(** [a || b] on numbers: [NaN] and [0] are falsy. *)
Definition or_else (a b : number) : number :=
  match a with
  | NaN => b
  | Num z => if z =? 0 then b else a
  | Inf _ => a
  end.

(** [Math.max(a, b)] *)
Definition Math_max (a b : number) : number :=
  match a, b with
  | Num x, Num y => Num (Z.max x y)
  | Inf false, (Num _ | Inf _) | (Num _ | Inf _), Inf false => Inf false
  | Inf true, Num y | Num y, Inf true => Num y
  | Inf true, Inf true => Inf true
  | NaN, _ | _, NaN => NaN
  end.

(** The double nearest to an integer: itself up to 2^53 in magnitude, then
    the 53 leading bits rounded to nearest, ties to even, and an infinity
    from 2^1024 on. *)
Definition roundDouble (z : Z) : number :=
  let a := Z.abs z in
  if a <=? 2 ^ 53 then Num z
  else
    let shift := Z.log2 a - 52 in
    let q := Z.shiftr a shift in
    let r := a `mod` 2 ^ shift in
    let half := 2 ^ (shift - 1) in
    let q' := if (half <? r) || ((r =? half) && Z.odd q) then q + 1 else q in
    let v := q' * 2 ^ shift in
    if 2 ^ 1024 <=? v then Inf (z <? 0) else Num (Z.sgn z * v).

(** [n.toString()] of an integer below 10^21 in magnitude, as every value
    of [Date.now()] is: an optional minus sign and the decimal digits.
    [Number_toString] below is the function on all numbers. *)
Definition toString (z : Z) : string := pretty z.

(** Value of a code unit as a digit: 0-9, then a-z and A-Z for 10-35. *)
Definition digitValue (c : ascii) : option Z :=
  let n := nat_of_ascii c in
  if ((48 <=? n) && (n <=? 57))%nat then Some (Z.of_nat n - 48)
  else if ((97 <=? n) && (n <=? 122))%nat then Some (Z.of_nat n - 87)
  else if ((65 <=? n) && (n <=? 90))%nat then Some (Z.of_nat n - 55)
  else None.

(** The longest prefix of [s] made of radix-[R] digits, read as a number;
    [acc] is [None] until a digit has been seen. *)
Fixpoint parseDigits (R : Z) (acc : option Z) (s : string) : option Z :=
  match s with
  | String c r =>
      match digitValue c with
      | Some d =>
          if d <? R then parseDigits R (Some (default 0 acc * R + d)) r
          else acc
      | None => acc
      end
  | EmptyString => acc
  end.

(** [Number.parseInt(s, radix)]; [radix = None] is the call with one
    argument.  Leading white space is skipped, a sign is read, a [0x]
    prefix switches to radix 16 when no other radix was asked for, and the
    digits are read up to the first character that is not one.  No digit
    at all gives [NaN].  The integer read is rounded to a double, as the
    engines do for radix 10. *)
Definition parseInt (s : string) (radix : option Z) : number :=
  let S0 := trimStart s in
  let '(sign, S1) :=
    match S0 with
    | String "-" r => (-1, r)
    | String "+" r => (1, r)
    | _ => (1, S0)
    end in
  let '(R, stripPrefix) :=
    match radix with
    | None => (10, true)
    | Some r => if r =? 0 then (10, true) else (r, r =? 16)
    end in
  if (R <? 2) || (36 <? R) then NaN
  else
    let '(R, S2) :=
      if stripPrefix && (startsWith "0x" S1 || startsWith "0X" S1)
      then (16, String.substring 2 (String.length S1 - 2) S1)
      else (R, S1) in
    match parseDigits R None S2 with
    | Some z => roundDouble (sign * z)
    | None => NaN
    end.

(** *** Arrays *)

(** [l.slice(0, end)]: a [NaN] end is 0, a negative end counts from the
    back, and the result never runs past the array; an infinite end is
    the whole array or nothing. *)
Definition slice0 {A} (l : list A) (e : number) : list A :=
  match e with
  | NaN => []
  | Num z =>
      let len := Z.of_nat (length l) in
      let final := if z <? 0 then Z.max (len + z) 0 else Z.min z len in
      take (Z.to_nat final) l
  | Inf negative => if negative then [] else l
  end.

(** *** Exceptions *)

(** A computation returns a value or throws. *)
Inductive outcome (A : Type) :=
| Returned (a : A)
| Thrown (e : string).
Global Arguments Returned {A} a.
Global Arguments Thrown {A} e.

Global Instance outcome_ret : MRet outcome := λ A a, Returned a.

Global Instance outcome_bind : MBind outcome := λ A B k m,
  match m with
  | Returned a => k a
  | Thrown e => Thrown e
  end.

(** [try { body } catch (e) { handler(e) }] *)
Definition try_catch {A} (body : outcome A) (handler : string → outcome A) : outcome A :=
  match body with
  | Returned a => Returned a
  | Thrown e => handler e
  end.

End JS.

Import JS.

(** ** The component *)

Inductive ContentType := TText | TMarkdown | TCode | TUrl.

Global Instance ContentType_eq_dec : EqDecision ContentType.
Proof. solve_decision. Defined.

(** [interface ClipboardItem] *)
Record ClipboardItem := {
  id : string;
  text : string;
  timestamp : Z;
  preview : string;
  tags : list string;
  type : ContentType
}.

Global Instance ClipboardItem_eq_dec : EqDecision ClipboardItem.
Proof. solve_decision. Defined.

Definition PREDEFINED_TAGS : list string :=
  ["Work"; "Personal"; "Code"; "Links"; "Notes"; "Temp"].

(** The [useState] cells of [Clipboard] that the handlers read or write.
    [showSettings] and [copiedId] only steer rendering and are left out.
    [textInput] is the cell the source calls [text]; the name is taken by
    the field of [ClipboardItem]. *)
Record State := {
  textInput : string;
  items : list ClipboardItem;
  searchQuery : string;
  selectedTags : list string;
  newTag : string;
  contentType : ContentType;
  maxItems : number;
  allTags : list string;
  isTagFilterActive : bool
}.

(** The initial values given to [useState]. *)
Definition initial_state : State := {|
  textInput := "";
  items := [];
  searchQuery := "";
  selectedTags := [];
  newTag := "";
  contentType := TText;
  maxItems := Num 50;
  allTags := PREDEFINED_TAGS;
  isTagFilterActive := false
|}.

(** The setters. *)
Definition setText (v : string) (s : State) : State :=
  {| textInput := v; items := items s; searchQuery := searchQuery s;
     selectedTags := selectedTags s; newTag := newTag s;
     contentType := contentType s; maxItems := maxItems s;
     allTags := allTags s; isTagFilterActive := isTagFilterActive s |}.

Definition setItems (v : list ClipboardItem) (s : State) : State :=
  {| textInput := textInput s; items := v; searchQuery := searchQuery s;
     selectedTags := selectedTags s; newTag := newTag s;
     contentType := contentType s; maxItems := maxItems s;
     allTags := allTags s; isTagFilterActive := isTagFilterActive s |}.

Definition setSearchQuery (v : string) (s : State) : State :=
  {| textInput := textInput s; items := items s; searchQuery := v;
     selectedTags := selectedTags s; newTag := newTag s;
     contentType := contentType s; maxItems := maxItems s;
     allTags := allTags s; isTagFilterActive := isTagFilterActive s |}.

Definition setSelectedTags (v : list string) (s : State) : State :=
  {| textInput := textInput s; items := items s; searchQuery := searchQuery s;
     selectedTags := v; newTag := newTag s;
     contentType := contentType s; maxItems := maxItems s;
     allTags := allTags s; isTagFilterActive := isTagFilterActive s |}.

Definition setNewTag (v : string) (s : State) : State :=
  {| textInput := textInput s; items := items s; searchQuery := searchQuery s;
     selectedTags := selectedTags s; newTag := v;
     contentType := contentType s; maxItems := maxItems s;
     allTags := allTags s; isTagFilterActive := isTagFilterActive s |}.

Definition setContentType (v : ContentType) (s : State) : State :=
  {| textInput := textInput s; items := items s; searchQuery := searchQuery s;
     selectedTags := selectedTags s; newTag := newTag s;
     contentType := v; maxItems := maxItems s;
     allTags := allTags s; isTagFilterActive := isTagFilterActive s |}.

Definition setMaxItems (v : number) (s : State) : State :=
  {| textInput := textInput s; items := items s; searchQuery := searchQuery s;
     selectedTags := selectedTags s; newTag := newTag s;
     contentType := contentType s; maxItems := v;
     allTags := allTags s; isTagFilterActive := isTagFilterActive s |}.

Definition setAllTags (v : list string) (s : State) : State :=
  {| textInput := textInput s; items := items s; searchQuery := searchQuery s;
     selectedTags := selectedTags s; newTag := newTag s;
     contentType := contentType s; maxItems := maxItems s;
     allTags := v; isTagFilterActive := isTagFilterActive s |}.

Definition setIsTagFilterActive (v : bool) (s : State) : State :=
  {| textInput := textInput s; items := items s; searchQuery := searchQuery s;
     selectedTags := selectedTags s; newTag := newTag s;
     contentType := contentType s; maxItems := maxItems s;
     allTags := allTags s; isTagFilterActive := v |}.

(** [createPreview] *)
Definition createPreview (text : string) : string :=
  if (50 <? String.length text)%nat then substring0 50 text +:+ "..." else text.

(** [detectContentType]; the regular expression [/^https?:\/\//] has no
    flag, so it matches at the start of the string only. *)
Definition detectContentType (text : string) : ContentType :=
  if startsWith "http://" text || startsWith "https://" text then TUrl
  else if includes text "```" || includes text "function" ||
          includes text "const " || includes text "import " then TCode
  else if includes text "#" || includes text "**" || includes text "*" ||
          includes text "[" || includes text "]" then TMarkdown
  else TText.

(** [addTag] *)
Definition addTag (s : State) : State :=
  if truthy (trim (newTag s)) && negb (bool_decide (trim (newTag s) ∈ allTags s))
  then setNewTag ""
         (setSelectedTags (selectedTags s ++ [trim (newTag s)])
            (setAllTags (allTags s ++ [trim (newTag s)]) s))
  else s.

(** [removeTag] *)
Definition removeTag (tagToRemove : string) (s : State) : State :=
  setSelectedTags (filter (λ tag, tag ≠ tagToRemove) (selectedTags s)) s.

(** The [onValueChange] of the tag selector. *)
Definition selectTag (value : string) (s : State) : State :=
  if truthy value then setSelectedTags (selectedTags s ++ [value]) s else s.

(** The item that [saveText] builds.  [Date.now()] is read twice, once for
    the id and once for the timestamp. *)
Definition newItem (now_id now_ts : Z) (s : State) : ClipboardItem :=
  let detectedType :=
    if bool_decide (contentType s = TText)
    then detectContentType (trim (textInput s))
    else contentType s in
  {| id := toString now_id;
     text := trim (textInput s);
     timestamp := now_ts;
     preview := createPreview (trim (textInput s));
     tags := selectedTags s;
     type := detectedType |}.

(** [saveText] *)
Definition saveText (now_id now_ts : Z) (s : State) : State :=
  if negb (truthy (trim (textInput s))) then s
  else
    let newItem := newItem now_id now_ts s in
    let filtered := filter (λ item, text item ≠ text newItem) (items s) in
    let newItems := slice0 (newItem :: filtered) (maxItems s) in
    setContentType TText (setSelectedTags [] (setText "" (setItems newItems s))).

(** [deleteItem] *)
Definition deleteItem (id0 : string) (s : State) : State :=
  setItems (filter (λ item, id item ≠ id0) (items s)) s.

(** [clearAll] *)
Definition clearAll (s : State) : State := setItems [] s.

(** The [onChange] of the "Maximum entries" input. *)
Definition changeMaxItems (value : string) (s : State) : State :=
  setMaxItems (Math_max (Num 1) (or_else (parseInt value None) (Num 50))) s.

(** [filteredItems] *)
Definition matchesSearch (s : State) (item : ClipboardItem) : bool :=
  includes (toLowerCase (text item)) (toLowerCase (searchQuery s)).

Definition matchesTags (s : State) (item : ClipboardItem) : bool :=
  negb (isTagFilterActive s) || (length (selectedTags s) =? 0)%nat ||
  existsb (λ tag, bool_decide (tag ∈ tags item)) (selectedTags s).

Definition filteredItems (s : State) : list ClipboardItem :=
  filter (λ item, matchesSearch s item && matchesTags s item) (items s).

(** *** Persisted state *)

(** What [localStorage.getItem] returns for the three keys; [None] is
    [null]. *)
Record Storage := {
  clipboard_items : option string;
  clipboard_max_items : option string;
  clipboard_tags : option string
}.

(** [if (v)] on what [getItem] returned. *)
Definition present (v : option string) : option string :=
  match v with
  | Some x => if truthy x then Some x else None
  | None => None
  end.

Section Load.

(** [JSON.parse], at the two types the loader stores its result at. *)
Variable JSON_parse_items : string → outcome (list ClipboardItem).
Variable JSON_parse_tags : string → outcome (list string).

(** The body of the effect that loads from [localStorage]. *)
Definition load (st : Storage) (s : State) : outcome State :=
  s ← match present (clipboard_items st) with
      | Some saved =>
          try_catch (v ← JSON_parse_items saved; mret (setItems v s))
                    (λ e, (* console.error *) mret s)
      | None => mret s
      end;
  s ← match present (clipboard_max_items st) with
      | Some savedMaxItems => mret (setMaxItems (parseInt savedMaxItems (Some 10)) s)
      | None => mret s
      end;
  match present (clipboard_tags st) with
  | Some savedTags =>
      try_catch (v ← JSON_parse_tags savedTags; mret (setAllTags v s))
                (λ e, mret (setAllTags PREDEFINED_TAGS s))
  | None => mret s
  end.

(** The effect has no dependencies: it runs once, on mount, when every
    cell still has its initial value. *)
Definition mount (st : Storage) : outcome State := load st initial_state.

End Load.

(** [n.toString()] of a number.  [exponential] is the exponent notation
    that the host gives a number of magnitude 10^21 or more. *)
Definition Number_toString (exponential : Z → string) (n : number) : string :=
  match n with
  | NaN => "NaN"
  | Inf negative => if negative then "-Infinity" else "Infinity"
  | Num z => if Z.abs z <? 10 ^ 21 then toString z else exponential z
  end.

(** What the saving effect of the capacity writes for a state. *)
Definition persistMaxItems (exponential : Z → string) (s : State) : option string :=
  Some (Number_toString exponential (maxItems s)).

(** *** Events *)

(** What the user can do, with the clock readings of a save. *)
Inductive event :=
| SetText (v : string)
| SetContentType (v : ContentType)
| SelectTag (v : string)
| RemoveTag (v : string)
| SetNewTag (v : string)
| AddTag
| SaveText (now_id now_ts : Z)
| DeleteItem (id0 : string)
| ClearAll
| ChangeMaxItems (v : string)
| SetSearchQuery (v : string)
| ToggleTagFilter
| ClearFilters.

Definition step (e : event) (s : State) : State :=
  match e with
  | SetText v => setText v s
  | SetContentType v => setContentType v s
  | SelectTag v => selectTag v s
  | RemoveTag v => removeTag v s
  | SetNewTag v => setNewTag v s
  | AddTag => addTag s
  | SaveText now_id now_ts => saveText now_id now_ts s
  | DeleteItem id0 => deleteItem id0 s
  | ClearAll => clearAll s
  | ChangeMaxItems v => changeMaxItems v s
  | SetSearchQuery v => setSearchQuery v s
  | ToggleTagFilter => setIsTagFilterActive (negb (isTagFilterActive s)) s
  | ClearFilters => setIsTagFilterActive false (setSelectedTags [] s)
  end.

(** The events in order, the first one first. *)
Definition run (es : list event) (s : State) : State :=
  foldl (λ s e, step e s) s es.

(** A state the component can be in: it mounted, which ran the loader on
    whatever the storage held, and then saw some events. *)
Definition reachable (s : State) : Prop :=
  ∃ parse_items parse_tags st s0 es,
    mount parse_items parse_tags st = Returned s0 ∧ s = run es s0.

(** Storage with nothing in it, as on a first visit. *)
Definition empty_storage : Storage :=
  {| clipboard_items := None; clipboard_max_items := None;
     clipboard_tags := None |}.

(** ** Notions the statements use *)

(** [p] is at the start of [s]. *)
Definition starts_with (s p : string) : Prop := ∃ r, s = p +:+ r.

(** [p] occurs in [s]. *)
Definition contains (s p : string) : Prop := ∃ a b, s = a +:+ p +:+ b.


(** The patterns that [detectContentType] looks for. *)
Definition looks_like_url (t : string) : Prop :=
  starts_with t "http://" ∨ starts_with t "https://".

Definition looks_like_code (t : string) : Prop :=
  contains t "```" ∨ contains t "function" ∨ contains t "const " ∨
  contains t "import ".

Definition looks_like_markdown (t : string) : Prop :=
  contains t "#" ∨ contains t "**" ∨ contains t "*" ∨ contains t "[" ∨
  contains t "]".

(** The type that the priority order url, code, markdown, text gives. *)
Definition type_by_priority (t : string) (ty : ContentType) : Prop :=
  match ty with
  | TUrl => looks_like_url t
  | TCode => ¬ looks_like_url t ∧ looks_like_code t
  | TMarkdown => ¬ looks_like_url t ∧ ¬ looks_like_code t ∧ looks_like_markdown t
  | TText => ¬ looks_like_url t ∧ ¬ looks_like_code t ∧ ¬ looks_like_markdown t
  end.

(** The entry list fits the setting. *)
Definition within_capacity (s : State) : Prop :=
  ∃ m, maxItems s = Num m ∧ Z.of_nat (length (items s)) ≤ m.

(** The capacity has room for one entry: an integer of at least 1, or
    plus infinity. *)
Definition holds_one (n : number) : Prop :=
  match n with
  | Num m => 1 ≤ m
  | Inf negative => negative = false
  | NaN => False
  end.

(** The clock values read, for their ids, by the saves of [es] that create
    an entry when [es] happens from [s] on; a save of a blank text reads
    no clock. *)
Fixpoint readings (es : list event) (s : State) : list Z :=
  match es with
  | e :: r =>
      match e with
      | SaveText now_id _ =>
          if truthy (trim (textInput s)) then [now_id] else []
      | _ => []
      end ++ readings r (step e s)
  | [] => []
  end.

(** The setting is an integer from 1 to 200. *)
Definition in_range (n : number) : Prop := ∃ m, n = Num m ∧ 1 ≤ m ≤ 200.

(** Every id in [l] was written from a clock reading of at most [t]. *)
Definition ids_upto (t : Z) (l : list ClipboardItem) : Prop :=
  ∀ it, it ∈ l → ∃ z, id it = toString z ∧ z ≤ t.

(** [c] is one of the characters 0 to 9. *)
Definition decimal_digit (c : ascii) : Prop :=
  ∃ d, (d < 10)%N ∧ c = pretty_N_char d.

(** The clock readings that successive saves take for their ids go up
    strictly, starting above [t]. *)
Fixpoint clock_increasing (t : Z) (es : list event) : Prop :=
  match es with
  | SaveText now_id _ :: r => t < now_id ∧ clock_increasing now_id r
  | _ :: r => clock_increasing t r
  | [] => True
  end.

(** A [JSON.parse] that throws on every input. *)
Definition parse_fails {A} (v : string) : outcome A := Thrown "SyntaxError".

(** The text of the markdown scenario, a heading line and a bold line. *)
Definition markdown_sample : string :=
  "# Title" +:+ String (ascii_of_nat 10) "**bold**".

(** A page that has just mounted and has [v] typed in the text box. *)
Definition typed (v : string) : State := setText v initial_state.

(** ** The rest of the component *)

(** [formatTime]; [now] is the [Date.now()] it reads.  [Math.floor] of a
    quotient by a positive constant is the floor division of [Z]. *)
Definition formatTime (now timestamp : Z) : string :=
  let diff := now - timestamp in
  let minutes := diff `div` 60000 in
  let hours := diff `div` 3600000 in
  let days := diff `div` 86400000 in
  if 0 <? days then toString days +:+ "d ago"
  else if 0 <? hours then toString hours +:+ "h ago"
  else if 0 <? minutes then toString minutes +:+ "m ago"
  else "now".

(** [s.split(sep)[0]] for a separator of one character: what comes before
    the first [sep], or all of [s] when there is none. *)
Fixpoint splitHead (sep : ascii) (s : string) : string :=
  match s with
  | String c r => if bool_decide (c = sep) then EmptyString else String c (splitHead sep r)
  | EmptyString => EmptyString
  end.

(** The object that [exportData] serializes, and the name it gives the
    download; [isoDate] and [isoName] are the two [toISOString()] readings. *)
Record ExportData := {
  export_items : list ClipboardItem;
  export_tags : list string;
  exportDate : string;
  version : string
}.

Definition exportData (isoDate : string) (s : State) : ExportData :=
  {| export_items := items s; export_tags := allTags s;
     exportDate := isoDate; version := "2.0" |}.

Definition exportFileName (isoName : string) : string :=
  "clipboard-export-" +:+ splitHead "T" isoName +:+ ".json".

(** [handleKeyPress]: Enter without Shift saves. *)
Definition handleKeyPress (key : string) (shiftKey : bool)
    (now_id now_ts : Z) (s : State) : State :=
  if bool_decide (key = "Enter") && negb shiftKey
  then saveText now_id now_ts s else s.

Section Persist.

(** [JSON.stringify], at the two types the saving effects call it at. *)
Variable JSON_stringify_items : list ClipboardItem → string.
Variable JSON_stringify_tags : list string → string.

(** The exponent notation of [Number.prototype.toString]. *)
Variable exponential : Z → string.

(** What the three saving effects leave in [localStorage] for a state. *)
Definition persist (s : State) : Storage :=
  {| clipboard_items := Some (JSON_stringify_items (items s));
     clipboard_max_items := persistMaxItems exponential s;
     clipboard_tags := Some (JSON_stringify_tags (allTags s)) |}.

End Persist.

(** An entry as [saveText] builds it: the text is not empty and has no
    white space around it, and the preview is derived from the text. *)
Definition well_formed_entry (it : ClipboardItem) : Prop :=
  text it ≠ "" ∧ trim (text it) = text it ∧ preview it = createPreview (text it).

(** The timestamps go down along the list. *)
Fixpoint newest_first (l : list ClipboardItem) : Prop :=
  match l with
  | it :: r => Forall (λ o, timestamp o ≤ timestamp it) r ∧ newest_first r
  | [] => True
  end.

(** The clock readings that successive saves take for their timestamps
    never go down, starting from [t]. *)
Fixpoint clock_nondecreasing (t : Z) (es : list event) : Prop :=
  match es with
  | SaveText _ now_ts :: r => t ≤ now_ts ∧ clock_nondecreasing now_ts r
  | _ :: r => clock_nondecreasing t r
  | [] => True
  end.

(** [s] has no white space at either end. *)
Definition no_outer_space (s : string) : Prop :=
  trimStart s = s ∧ trimEnd s = s.

(** ** Examples *)

Example parseInt_examples :
  parseInt "42" None = Num 42 ∧ parseInt "  -7px" (Some 10) = Num (-7) ∧
  parseInt "abc" None = NaN ∧ parseInt "" None = NaN ∧
  parseInt "0x1F" None = Num 31 ∧ parseInt "0x1F" (Some 10) = Num 0 ∧
  parseInt "1.5" None = Num 1 ∧ parseInt "1e3" None = Num 1 ∧
  parseInt "+200" (Some 10) = Num 200 ∧ parseInt "-" None = NaN.
Proof. repeat split; reflexivity. Qed.

(** With a capacity of two, three saves leave the two latest texts. *)
Example capacity_two_scenario :
  text <$> items (run [ChangeMaxItems "2"; SetText "one"; SaveText 1 1;
                       SetText "two"; SaveText 2 2;
                       SetText "three"; SaveText 3 3] initial_state)
  = ["three"; "two"].
Proof. reflexivity. Qed.

(** Saving a text again moves it to the front under a new id. *)
Example resave_scenario :
  let s := run [SetText "one"; SaveText 1 1; SetText "two"; SaveText 2 2;
                SetText " one "; SaveText 3 4] initial_state in
  (λ it, (id it, text it, timestamp it)) <$> items s
  = [("3", "one", 4); ("2", "two", 2)].
Proof. reflexivity. Qed.

(** A negative or missing capacity, as a load can set it. *)
Example odd_capacity_scenario :
  items (saveText 1 1 (setText "one" (setMaxItems NaN initial_state))) = [] ∧
  items (saveText 1 1 (setText "one" (setMaxItems (Num (-1)) initial_state))) = [].
Proof. split; reflexivity. Qed.

(** Integers that are not doubles: rounding, and infinity. *)
Example rounding_examples :
  parseInt "9007199254740993" None = Num 9007199254740992 ∧
  roundDouble (2 ^ 53 + 3) = Num (2 ^ 53 + 4) ∧
  roundDouble (10 ^ 400) = Inf false ∧ roundDouble (- 10 ^ 400) = Inf true ∧
  maxItems (changeMaxItems "-5" initial_state) = Num 1 ∧
  slice0 [1; 2; 3] (Inf false) = [1; 2; 3] ∧ slice0 [1; 2; 3] (Inf true) = [] ∧
  parseInt (Number_toString (λ _, "1e+21") (Num (10 ^ 21))) (Some 10) = Num 1 ∧
  parseInt (Number_toString (λ _, "") (Inf false)) (Some 10) = NaN.
Proof. repeat split; vm_compute; reflexivity. Qed.

Example string_examples :
  trim "  a b  " = "a b" ∧ trim "   " = "" ∧ includes "xconst y" "const " = true ∧
  includes "abc" "" = true ∧ toLowerCase "HeLLo" = "hello" ∧
  slice0 [1; 2; 3] (Num 2) = [1; 2] ∧ slice0 [1; 2; 3] (Num (-1)) = [1; 2] ∧
  slice0 [1; 2; 3] NaN = [] ∧ slice0 [1; 2; 3] (Num 7) = [1; 2; 3] ∧
  toString 1700000000000 = "1700000000000" ∧ toString (-5) = "-5".
Proof. repeat split; reflexivity. Qed.

(** ** Facts about the built-ins *)

#[local] Arguments String.append !_ _ / : simpl nomatch.

Section StringFacts.

Implicit Types (s p q a b : string) (c : ascii).

Lemma append_empty_r s : s +:+ "" = s.
Proof. induction s as [|c s IH]; simpl; [done | by rewrite IH]. Qed.

Lemma append_assoc a b s : (a +:+ b) +:+ s = a +:+ (b +:+ s).
Proof. induction a as [|c a IH]; simpl; [done | by rewrite IH]. Qed.

Lemma length_append a b :
  String.length (a +:+ b) = (String.length a + String.length b)%nat.
Proof. induction a as [|c a IH]; simpl; [done | by rewrite IH]. Qed.

Lemma startsWith_spec p s : startsWith p s = true ↔ starts_with s p.
Proof.
  unfold starts_with. revert s.
  induction p as [|c p IH]; intros [|d s]; simpl.
  - split; [by exists "" | done].
  - split; [by eexists | done].
  - split; [done | by intros [r Hr]].
  - rewrite andb_true_iff, bool_decide_eq_true, IH. split.
    + intros [-> [r ->]]. by exists r.
    + intros [r Hr]. injection Hr as -> ->. eauto.
Qed.

Lemma includes_spec s p : includes s p = true ↔ contains s p.
Proof.
  unfold contains.
  induction s as [|c s IH]; simpl; rewrite orb_true_iff, startsWith_spec.
  - split.
    + intros [[r Hr] | ?]; [|done]. by exists "", r.
    + intros (a & b & H). left. destruct a; [by exists b | done].
  - rewrite IH. split.
    + intros [[r Hr] | (a & b & ->)]; [by exists "", r |].
      by exists (String c a), b.
    + intros ([|d a] & b & H); [left; by exists b |].
      right. simpl in H. injection H as -> ->. eauto.
Qed.





Lemma substring0_split n s :
  ∃ r, s = substring0 n s +:+ r ∧
       String.length (substring0 n s) = (n `min` String.length s)%nat.
Proof.
  unfold substring0. revert s.
  induction n as [|n IH]; intros [|c s]; simpl; try by eexists.
  destruct (IH s) as (r & Hr & Hlen). exists r. split.
  - f_equal. exact Hr.
  - by rewrite Hlen.
Qed.

Lemma truthy_spec s : truthy s = true ↔ s ≠ "".
Proof.
  unfold truthy. rewrite negb_true_iff.
  destruct (String.eqb_spec s ""); naive_solver.
Qed.

End StringFacts.

Section NumberFacts.

(** [toString] never gives the same string for two integers. *)
Lemma toString_inj z1 z2 : toString z1 = toString z2 → z1 = z2.
Proof. apply (inj pretty). Qed.

Lemma digit_cases (d : N) :
  (d < 10)%N →
  d = 0%N ∨ d = 1%N ∨ d = 2%N ∨ d = 3%N ∨ d = 4%N ∨
  d = 5%N ∨ d = 6%N ∨ d = 7%N ∨ d = 8%N ∨ d = 9%N.
Proof. lia. Qed.

Lemma digitValue_pretty_N_char (d : N) :
  (d < 10)%N → digitValue (pretty_N_char d) = Some (Z.of_N d).
Proof.
  intros H. destruct (digit_cases d H) as [-> | H']; [done |].
  repeat (destruct H' as [-> | H']; [done |]). by subst.
Qed.

Lemma parseDigits_digit (d : N) acc r :
  (d < 10)%N →
  parseDigits 10 acc (String (pretty_N_char d) r) =
  parseDigits 10 (Some (default 0 acc * 10 + Z.of_N d)) r.
Proof.
  intros H. simpl. rewrite (digitValue_pretty_N_char d H).
  by destruct (Z.ltb_spec (Z.of_N d) 10); [| lia].
Qed.

(** The digits that [pretty_N_go] puts in front of [s] start with a digit
    and read back as [x]. *)
Lemma pretty_N_go_numeral (x : N) :
  (0 < x)%N →
  ∃ c ds p,
    decimal_digit c ∧
    (∀ s, pretty_N_go x s = String c (ds +:+ s)) ∧
    (∀ acc s, parseDigits 10 acc (String c (ds +:+ s)) =
              parseDigits 10 (Some (default 0 acc * p + Z.of_N x)) s).
Proof.
  induction (N.lt_wf_0 x) as [x _ IH]. intros Hx.
  assert (Hmod : (x `mod` 10 < 10)%N) by (apply N.mod_lt; lia).
  assert (Hdiv : x = (10 * (x `div` 10) + x `mod` 10)%N) by (apply N.div_mod; lia).
  destruct (decide (x `div` 10 = 0)%N) as [H0 | H0].
  - exists (pretty_N_char (x `mod` 10)), "", 10. split; [by eexists |]. split.
    + intros s. by rewrite pretty_N_go_step, H0, pretty_N_go_0.
    + intros acc s. change ("" +:+ s) with s.
      rewrite parseDigits_digit by done. do 2 f_equal. lia.
  - destruct (IH (x `div` 10)%N) as (c & ds & p & Hc & Hgo & Hparse);
      [apply N.div_lt; lia | lia |].
    exists c, (ds +:+ String (pretty_N_char (x `mod` 10)) ""), (p * 10).
    split; [done |]. split.
    + intros s. by rewrite pretty_N_go_step, Hgo, append_assoc.
    + intros acc s. rewrite append_assoc.
      change (String ?c "" +:+ s) with (String c s).
      rewrite Hparse, parseDigits_digit by done. simpl.
      do 2 f_equal. lia.
Qed.

Lemma parseInt_digit_start c r :
  decimal_digit c →
  parseInt (String c r) (Some 10) =
  match parseDigits 10 None (String c r) with
  | Some z => roundDouble (1 * z)
  | None => NaN
  end.
Proof.
  intros (d & Hd & ->).
  destruct (digit_cases d Hd) as [-> | H]; [done |].
  repeat (destruct H as [-> | H]; [done |]). by subst.
Qed.

Lemma parseInt_minus r :
  parseInt (String "-" r) (Some 10) =
  match parseDigits 10 None r with
  | Some z => roundDouble (-1 * z)
  | None => NaN
  end.
Proof. done. Qed.

Lemma parseDigits_pretty_N_go (x : N) :
  (0 < x)%N →
  ∃ c r, decimal_digit c ∧ pretty_N_go x "" = String c r ∧
         parseDigits 10 None (String c r) = Some (Z.of_N x).
Proof.
  intros Hx. destruct (pretty_N_go_numeral x Hx) as (c & ds & p & Hc & Hgo & Hparse).
  exists c, (ds +:+ ""). split; [done |]. split; [done |].
  by rewrite Hparse.
Qed.

(** Integers up to 2^53 in magnitude are doubles. *)
Lemma roundDouble_safe z : Z.abs z ≤ 2 ^ 53 → roundDouble z = Num z.
Proof.
  intros Hz. unfold roundDouble.
  by destruct (Z.leb_spec (Z.abs z) (2 ^ 53)); [| lia].
Qed.

(** Reading back what [toString] wrote, for an integer that is a double
    for sure. *)
Lemma parseInt_toString z :
  Z.abs z ≤ 2 ^ 53 → parseInt (toString z) (Some 10) = Num z.
Proof.
  intros Hz. destruct z as [|p|p]; [done | |].
  - destruct (parseDigits_pretty_N_go (Npos p)) as (c & r & Hc & Hgo & Hparse); [lia |].
    change (toString (Z.pos p)) with (pretty_N_go (Npos p) "").
    rewrite Hgo, parseInt_digit_start, Hparse by done.
    change (1 * Z.of_N (N.pos p)) with (Z.pos p). by apply roundDouble_safe.
  - destruct (parseDigits_pretty_N_go (Npos p)) as (c & r & Hc & Hgo & Hparse); [lia |].
    change (toString (Z.neg p)) with (String "-" (pretty_N_go (Npos p) "")).
    rewrite parseInt_minus, Hgo, Hparse.
    change (-1 * Z.of_N (N.pos p)) with (Z.neg p). by apply roundDouble_safe.
Qed.

Lemma toString_truthy z : truthy (toString z) = true.
Proof.
  destruct z as [|p|p]; [done | | done].
  destruct (parseDigits_pretty_N_go (Npos p)) as (c & r & _ & Hgo & _); [lia |].
  change (toString (Z.pos p)) with (pretty_N_go (Npos p) "").
  by rewrite Hgo.
Qed.

(** What the settings handler computes from the parsed number. *)
Lemma Math_max_or_else n :
  let r := Math_max (Num 1) (or_else n (Num 50)) in
  holds_one r ∧
  (n = NaN ∨ n = Num 0 → r = Num 50) ∧
  (∀ z, n = Num z → z ≠ 0 → r = Num (Z.max 1 z)) ∧
  (n = Inf true → r = Num 1) ∧ (n = Inf false → r = Inf false).
Proof.
  destruct n as [|z|[]]; simpl.
  - split_and!; [lia | done | done | done | done].
  - destruct (Z.eqb_spec z 0) as [-> | Hz]; simpl.
    + split_and!; [lia | done | by intros ? [= <-] | done | done].
    + split_and!; [lia | intros [? | ?]; congruence | by intros ? [= ->] _ | done | done].
  - split_and!; [lia | by intros [? | ?] | done | done | done].
  - split_and!; [done | by intros [? | ?] | done | done | done].
Qed.

End NumberFacts.

Section ArrayFacts.

Context {A : Type}.
Implicit Types (l : list A) (x : A).

Lemma slice0_prefix l e : slice0 l e `prefix_of` l.
Proof. destruct e as [| |[]]; simpl; [apply prefix_nil | apply prefix_take | apply prefix_nil | done]. Qed.

Lemma slice0_sublist l e : slice0 l e `sublist_of` l.
Proof.
  destruct (slice0_prefix l e) as [k Hk]. rewrite Hk at 2.
  by apply sublist_inserts_r.
Qed.

(** Slicing a list with a first element gives nothing or keeps that
    element first. *)
Lemma slice0_cons_cases x l e :
  slice0 (x :: l) e = [] ∨
  ∃ rest, slice0 (x :: l) e = x :: rest ∧ rest `sublist_of` l.
Proof.
  destruct (slice0_prefix (x :: l) e) as [k Hk].
  destruct (slice0 (x :: l) e) as [|y rest]; [by left |]. right.
  injection Hk as -> ->. exists rest. split; [done |].
  by apply sublist_inserts_r.
Qed.


Lemma slice0_length l m :
  0 ≤ m → Z.of_nat (length (slice0 l (Num m))) = Z.min m (Z.of_nat (length l)).
Proof.
  intros Hm. simpl. destruct (Z.ltb_spec m 0); [lia |].
  rewrite length_take. lia.
Qed.

Lemma slice0_cons x l m :
  1 ≤ m → slice0 (x :: l) (Num m) = x :: slice0 l (Num (m - 1)).
Proof.
  intros Hm. unfold slice0.
  destruct (Z.ltb_spec m 0), (Z.ltb_spec (m - 1) 0); try lia.
  replace (Z.to_nat (Z.min m (Z.of_nat (length (x :: l)))))
    with (S (Z.to_nat (Z.min (m - 1) (Z.of_nat (length l)))))
    by (simpl length; lia).
  done.
Qed.

Lemma slice0_cons_holds_one x l e :
  holds_one e → ∃ rest, slice0 (x :: l) e = x :: rest ∧ rest `sublist_of` l.
Proof.
  intros He. destruct e as [|m|[]]; simpl in He; try done.
  - exists (slice0 l (Num (m - 1))).
    split; [by apply slice0_cons | apply slice0_sublist].
  - by exists l.
Qed.

End ArrayFacts.

Section ComponentFacts.

Implicit Types (s : State) (e : event) (it : ClipboardItem).

Lemma saveText_blank s now_id now_ts :
  trim (textInput s) = "" → saveText now_id now_ts s = s.
Proof. intros H. unfold saveText. by rewrite H. Qed.

Lemma saveText_items s now_id now_ts :
  trim (textInput s) ≠ "" →
  items (saveText now_id now_ts s) =
  slice0 (newItem now_id now_ts s ::
          filter (λ it, text it ≠ trim (textInput s)) (items s)) (maxItems s).
Proof.
  intros H. unfold saveText.
  apply truthy_spec in H. by rewrite H.
Qed.

Lemma saveText_maxItems s now_id now_ts :
  maxItems (saveText now_id now_ts s) = maxItems s.
Proof. unfold saveText. by destruct (truthy _). Qed.

(** With room for one entry, the new item is stored first. *)
Lemma saveText_head s now_id now_ts m :
  maxItems s = Num m → 1 ≤ m → trim (textInput s) ≠ "" →
  items (saveText now_id now_ts s) =
  newItem now_id now_ts s ::
  slice0 (filter (λ it, text it ≠ trim (textInput s)) (items s)) (Num (m - 1)).
Proof.
  intros Hmax Hm Ht. rewrite saveText_items, Hmax by done.
  by apply slice0_cons.
Qed.

(** Every event leaves the list, thins it out, or is a save. *)
Lemma step_items e s :
  items (step e s) `sublist_of` items s ∨
  ∃ now_id now_ts, e = SaveText now_id now_ts ∧ trim (textInput s) ≠ "" ∧
    items (step e s) =
    slice0 (newItem now_id now_ts s ::
            filter (λ it, text it ≠ trim (textInput s)) (items s)) (maxItems s).
Proof.
  destruct e; simpl; try by left.
  - left. unfold selectTag. by destruct (truthy _).
  - left. unfold addTag. by destruct (_ && _).
  - destruct (decide (trim (textInput s) = "")) as [H | H].
    + left. by rewrite saveText_blank.
    + right. eexists _, _. split_and!; [done.. |]. by apply saveText_items.
  - left. apply sublist_filter.
  - left. apply sublist_nil_l.
Qed.

Lemma step_maxItems e s :
  maxItems (step e s) = maxItems s ∨
  ∃ v, e = ChangeMaxItems v ∧
       maxItems (step e s) = Math_max (Num 1) (or_else (parseInt v None) (Num 50)).
Proof.
  destruct e; simpl; try by left.
  - left. unfold selectTag. by destruct (truthy _).
  - left. unfold addTag. by destruct (_ && _).
  - left. apply saveText_maxItems.
  - right. by eexists.
Qed.

Lemma run_snoc es e s : run (es ++ [e]) s = step e (run es s).
Proof. unfold run. by rewrite foldl_app. Qed.

(** The texts stay pairwise distinct through a save. *)
Lemma NoDup_text_save (l : list ClipboardItem) it (n : number) :
  NoDup (text <$> l) →
  NoDup (text <$> slice0 (it :: filter (λ o, text o ≠ text it) l) n).
Proof.
  intros Hl. eapply sublist_NoDup; [| apply fmap_sublist, slice0_sublist].
  rewrite fmap_cons. apply NoDup_cons. split.
  - rewrite list_elem_of_fmap. intros (o & Ho & [Hne _]%list_elem_of_filter). done.
  - eapply sublist_NoDup; [exact Hl | apply fmap_sublist, sublist_filter].
Qed.

Lemma NoDup_text_step e s :
  NoDup (text <$> items s) → NoDup (text <$> items (step e s)).
Proof.
  intros Hs. destruct (step_items e s) as [Hsub | (n1 & n2 & _ & _ & ->)].
  - eapply sublist_NoDup; [exact Hs | by apply fmap_sublist].
  - by apply (NoDup_text_save _ (newItem n1 n2 s)).
Qed.

Lemma NoDup_text_run es s :
  NoDup (text <$> items s) → NoDup (text <$> items (run es s)).
Proof.
  induction es as [|e es IH] using rev_ind; [done |].
  intros Hs. rewrite run_snoc. by apply NoDup_text_step, IH.
Qed.

(** The four outcomes of [detectContentType] are the priority order. *)
Lemma detectContentType_spec t : type_by_priority t (detectContentType t).
Proof.
  unfold detectContentType.
  destruct (startsWith "http://" t || startsWith "https://" t) eqn:Hurl.
  { apply orb_true_iff in Hurl. unfold type_by_priority, looks_like_url.
    by rewrite <-!startsWith_spec. }
  assert (¬ looks_like_url t) as Hnurl.
  { unfold looks_like_url. rewrite <-!startsWith_spec, <-orb_true_iff. congruence. }
  destruct (includes t "```" || includes t "function" ||
            includes t "const " || includes t "import ") eqn:Hcode.
  { split; [done |]. unfold looks_like_code. rewrite <-!includes_spec.
    rewrite !orb_true_iff in Hcode. tauto. }
  assert (¬ looks_like_code t) as Hncode.
  { unfold looks_like_code. rewrite <-!includes_spec.
    rewrite <-not_true_iff_false, !orb_true_iff in Hcode. tauto. }
  destruct (includes t "#" || includes t "**" || includes t "*" ||
            includes t "[" || includes t "]") eqn:Hmd.
  { split_and!; [done.. |]. unfold looks_like_markdown. rewrite <-!includes_spec.
    rewrite !orb_true_iff in Hmd. tauto. }
  split_and!; [done.. |]. unfold looks_like_markdown. rewrite <-!includes_spec.
  rewrite <-not_true_iff_false, !orb_true_iff in Hmd. tauto.
Qed.

Lemma type_by_priority_unique t ty1 ty2 :
  type_by_priority t ty1 → type_by_priority t ty2 → ty1 = ty2.
Proof. destruct ty1, ty2; simpl; tauto. Qed.

Lemma detectContentType_iff t ty :
  detectContentType t = ty ↔ type_by_priority t ty.
Proof.
  split; [intros <-; apply detectContentType_spec |].
  intros H. eapply type_by_priority_unique; [apply detectContentType_spec | done].
Qed.

Lemma createPreview_spec t :
  ((String.length t ≤ 50)%nat → createPreview t = t) ∧
  ((50 < String.length t)%nat →
     ∃ first50 r, t = first50 +:+ r ∧ String.length first50 = 50%nat ∧
                  createPreview t = first50 +:+ "...") ∧
  (String.length (createPreview t) ≤ 53)%nat.
Proof.
  unfold createPreview.
  destruct (substring0_split 50 t) as (r & Hr & Hlen).
  destruct (Nat.ltb_spec 50 (String.length t)) as [Hlt | Hle].
  - split_and!; [intros; lia | |].
    2:{ rewrite length_append, Hlen. change (String.length "...") with 3%nat. lia. }
    intros _. exists (substring0 50 t), r. split_and!; [done | lia | done].
  - split_and!; [done | intros; lia | lia].
Qed.

End ComponentFacts.

Section IdFacts.

Implicit Types (s : State) (l : list ClipboardItem).

Lemma ids_upto_mono t t' l : t ≤ t' → ids_upto t l → ids_upto t' l.
Proof. intros Ht H it Hit. destruct (H it Hit) as (z & ? & ?). exists z. split; [done | lia]. Qed.

Lemma ids_upto_sublist t l k : k `sublist_of` l → ids_upto t l → ids_upto t k.
Proof. intros Hsub H it Hit. apply H. by eapply elem_of_sublist. Qed.

(** A save at a later clock reading keeps the ids distinct. *)
Lemma ids_save s t now_id now_ts :
  t < now_id → NoDup (id <$> items s) → ids_upto t (items s) →
  NoDup (id <$> items (saveText now_id now_ts s)) ∧
  ids_upto now_id (items (saveText now_id now_ts s)).
Proof.
  intros Ht Hnd Hup.
  destruct (decide (trim (textInput s) = "")) as [Hblank | Hblank].
  { rewrite saveText_blank by done. split; [done |].
    eapply ids_upto_mono; [| done]. lia. }
  rewrite saveText_items by done.
  set (new := newItem now_id now_ts s).
  set (old := filter _ (items s)).
  assert (Hold : old `sublist_of` items s) by apply sublist_filter.
  assert (Hall : NoDup (id <$> new :: old) ∧ ids_upto now_id (new :: old)).
  { split.
    - rewrite fmap_cons. apply NoDup_cons. split.
      + rewrite list_elem_of_fmap. intros (o & Hid & Ho).
        destruct (Hup o) as (z & Hz & Hle); [by eapply elem_of_sublist |].
        rewrite Hz in Hid. apply toString_inj in Hid. lia.
      + eapply sublist_NoDup; [exact Hnd | by apply fmap_sublist].
    - intros it [-> | Hit]%elem_of_cons.
      + exists now_id. split; [done | lia].
      + destruct (Hup it) as (z & ? & ?); [by eapply elem_of_sublist |].
        exists z. split; [done | lia]. }
  destruct Hall as [Hnd' Hup']. split.
  - eapply sublist_NoDup; [exact Hnd' | apply fmap_sublist, slice0_sublist].
  - eapply ids_upto_sublist; [apply slice0_sublist | done].
Qed.

Lemma ids_run es : ∀ s t,
  clock_increasing t es → NoDup (id <$> items s) → ids_upto t (items s) →
  NoDup (id <$> items (run es s)).
Proof.
  induction es as [|e es IH]; intros s t Hclock Hnd Hup; [done |].
  change (run (e :: es) s) with (run es (step e s)).
  assert ((∃ n1 n2, e = SaveText n1 n2) ∨ ¬ ∃ n1 n2, e = SaveText n1 n2)
    as [(n1 & n2 & ->) | Hother]
    by (destruct e; first [by left; eauto | by right; intros (? & ? & ?)]).
  - destruct Hclock as [Ht Hclock].
    destruct (ids_save s t n1 n2 Ht Hnd Hup) as [Hnd' Hup'].
    by apply (IH _ n1).
  - destruct (step_items e s) as [Hsub | (n1 & n2 & -> & _)];
      [| destruct Hother; eauto].
    apply (IH _ t).
    + destruct e; try done. destruct Hother; eauto.
    + eapply sublist_NoDup; [exact Hnd | by apply fmap_sublist].
    + by eapply ids_upto_sublist.
Qed.

End IdFacts.

Section LoadFacts.

Variable parse_items : string → outcome (list ClipboardItem).
Variable parse_tags : string → outcome (list string).

(** The loader always returns, and what it stores in each cell. *)
Lemma load_returns st s :
  ∃ s', load parse_items parse_tags st s = Returned s' ∧
    items s' =
      match present (clipboard_items st) with
      | Some v => match parse_items v with Returned l => l | Thrown _ => items s end
      | None => items s
      end ∧
    maxItems s' =
      match present (clipboard_max_items st) with
      | Some v => parseInt v (Some 10)
      | None => maxItems s
      end ∧
    allTags s' =
      match present (clipboard_tags st) with
      | Some v => match parse_tags v with Returned l => l | Thrown _ => PREDEFINED_TAGS end
      | None => allTags s
      end.
Proof.
  unfold load.
  destruct (present (clipboard_items st)) as [v1|];
    [destruct (parse_items v1) |];
    (destruct (present (clipboard_max_items st)) as [v2|]);
    (destruct (present (clipboard_tags st)) as [v3|];
       [destruct (parse_tags v3) |]);
    by eexists.
Qed.

Lemma present_Some v : truthy v = true → present (Some v) = Some v.
Proof. intros H. simpl. by rewrite H. Qed.

End LoadFacts.

Section ReachableFacts.

(** A first visit, on empty storage, starts from the initial state. *)
Lemma reachable_run es : reachable (run es initial_state).
Proof. by exists parse_fails, parse_fails, empty_storage, initial_state, es. Qed.

(** So does a visit that finds only a capacity in storage, with that
    capacity. *)
Lemma reachable_run_loaded v es :
  truthy v = true →
  reachable (run es (setMaxItems (parseInt v (Some 10)) initial_state)).
Proof.
  intros Hv.
  exists parse_fails, parse_fails,
    {| clipboard_items := None; clipboard_max_items := Some v;
       clipboard_tags := None |},
    (setMaxItems (parseInt v (Some 10)) initial_state), es.
  split; [| done]. unfold mount, load. simpl. by rewrite Hv.
Qed.

End ReachableFacts.

(** ** The properties of the store *)

(** *** Capacity *)

(** C1, counterexample: two saves under the default setting followed by a
    change of the setting to 1 leave two entries in a store whose capacity
    is 1; the entry list is not within the capacity of that reachable
    state. *)
Lemma capacity_exceeded_by_setting_change :
  let s := run [SetText "a"; SaveText 1000 1000; SetText "b";
                SaveText 2000 2000; ChangeMaxItems "1"] initial_state in
  reachable s ∧ maxItems s = Num 1 ∧ length (items s) = 2%nat ∧
  ¬ within_capacity s.
Proof.
  split_and!; [apply reachable_run | done | done |].
  intros (m & [= <-] & Hlen). vm_compute in Hlen. by apply Hlen.
Qed.

(** C1, amended: at every store state, a loaded one included, a save that
    creates an entry keeps the front of the list made of the new entry
    followed by the earlier entries with a different text, so what it
    drops is the tail; when maxItems is a non-negative integer the list
    it leaves has at most maxItems entries, and it drops something only
    when the list is full.  Delete never lengthens the list and keeps it
    within capacity; clearAll leaves it within a non-negative capacity; a
    change of the maxItems setting leaves the entry list as it is. *)
Theorem capacity_after_operations s :
  (∀ now_id now_ts, trim (textInput s) ≠ "" →
     let s' := saveText now_id now_ts s in
     ∃ dropped,
       newItem now_id now_ts s ::
         filter (λ it, text it ≠ trim (textInput s)) (items s)
       = items s' ++ dropped ∧
       ∀ m, maxItems s = Num m → 0 ≤ m →
         within_capacity s' ∧
         (dropped ≠ [] → Z.of_nat (length (items s')) = m)) ∧
  (∀ id0, (length (items (deleteItem id0 s)) ≤ length (items s))%nat ∧
          (within_capacity s → within_capacity (deleteItem id0 s))) ∧
  (∀ m, maxItems s = Num m → 0 ≤ m → within_capacity (clearAll s)) ∧
  (∀ v, items (changeMaxItems v s) = items s).
Proof.
  split_and!.
  - intros now_id now_ts Ht s'.
    set (all := newItem now_id now_ts s :: filter _ (items s)).
    assert (Hitems : items s' = slice0 all (maxItems s))
      by (unfold s'; by rewrite saveText_items).
    destruct (slice0_prefix all (maxItems s)) as [dropped Hdrop].
    rewrite <-Hitems in Hdrop. exists dropped. split; [done |].
    intros m Hmax Hm. rewrite Hmax in Hitems.
    assert (Hlen : Z.of_nat (length (items s')) = Z.min m (Z.of_nat (length all)))
      by (rewrite Hitems; apply slice0_length; lia).
    split.
    + exists m. split; [unfold s'; by rewrite saveText_maxItems | lia].
    + intros Hne.
      assert (length all = (length (items s') + length dropped)%nat)
        by (by rewrite Hdrop at 1; rewrite length_app).
      destruct dropped; [done |]. simpl in *. lia.
  - intros id0. assert ((length (items (deleteItem id0 s)) ≤ length (items s))%nat)
      by apply length_filter.
    split; [done |]. intros (m' & Hm' & Hle). exists m'. split; [done | lia].
  - intros m Hmax Hm. exists m. split; [done | simpl; lia].
  - done.
Qed.

Lemma capacity_after_operations_witness :
  trim (textInput (typed "note")) ≠ "" ∧ maxItems (typed "note") = Num 50 ∧
  within_capacity (saveText 1000 1000 (typed "note")).
Proof.
  assert (Ht : trim (textInput (typed "note")) ≠ "") by (vm_compute; discriminate).
  split_and!; [exact Ht | reflexivity |].
  destruct (capacity_after_operations (typed "note")) as [Hsave _].
  destruct (Hsave 1000 1000 Ht) as (dropped & _ & Hcap).
  exact (proj1 (Hcap 50 eq_refl ltac:(lia))).
Defined.

(** *** No two entries with the same text *)

(** C2, counterexample: on a page that loaded the persisted capacity
    ["0"], a save of the text a stores nothing, so no entry has that text
    and none is at position 0. *)
Lemma save_stores_nothing_at_capacity_zero :
  let s := run [SetText "a"] (setMaxItems (parseInt "0" (Some 10)) initial_state) in
  reachable s ∧ trim (textInput s) = "a" ∧ maxItems s = Num 0 ∧
  items (saveText 1000 1000 s) = [] ∧
  filter (λ o, text o = "a") (items (saveText 1000 1000 s)) = [].
Proof. split_and!; [by apply reachable_run_loaded | done..]. Qed.

(** C2, amended: at every store state whose maxItems has room for one
    entry (an integer of at least 1, or infinity) and for every text that
    is not blank, the list after a save starts with an entry that has the
    trimmed text, the fresh id and the fresh timestamp; no other entry has
    that text, so exactly one has; the other entries come from the earlier
    list; and texts that were pairwise distinct stay so.  Texts that are
    pairwise distinct stay so through every sequence of events, whatever
    the capacity, so they are on a page that started from the empty
    list. *)
Theorem saveText_dedup :
  (∀ s now_id now_ts,
     holds_one (maxItems s) → trim (textInput s) ≠ "" →
     let t := trim (textInput s) in
     let s' := saveText now_id now_ts s in
     (∃ it rest, items s' = it :: rest ∧
        text it = t ∧ id it = toString now_id ∧ timestamp it = now_ts ∧
        Forall (λ o, text o ≠ t) rest ∧ rest `sublist_of` items s) ∧
     length (filter (λ o, text o = t) (items s')) = 1%nat ∧
     (NoDup (text <$> items s) → NoDup (text <$> items s'))) ∧
  (∀ es s, NoDup (text <$> items s) → NoDup (text <$> items (run es s))) ∧
  (∀ es, NoDup (text <$> items (run es initial_state))).
Proof.
  split_and!.
  - intros s now_id now_ts Hmax Ht t s'.
    destruct (slice0_cons_holds_one (newItem now_id now_ts s)
                (filter (λ it, text it ≠ trim (textInput s)) (items s))
                (maxItems s) Hmax) as (rest & Hslice & Hsub).
    assert (Hitems : items s' = newItem now_id now_ts s :: rest)
      by (unfold s'; by rewrite saveText_items).
    assert (Hrest : Forall (λ o, text o ≠ t) rest).
    { apply Forall_forall. intros o Ho.
      eapply elem_of_sublist in Ho; [| exact Hsub].
      by apply list_elem_of_filter in Ho as [? _]. }
    split_and!.
    + exists (newItem now_id now_ts s), rest. split_and!; try done.
      etrans; [exact Hsub | apply sublist_filter].
    + rewrite Hitems, filter_cons_True by done. simpl. f_equal.
      clear Hitems Hslice Hsub. induction Hrest as [|o l Ho _ IH]; [done |].
      by rewrite filter_cons_False.
    + intros Hnd. unfold s'. rewrite saveText_items by done.
      by apply (NoDup_text_save _ (newItem now_id now_ts s)).
  - apply NoDup_text_run.
  - intros es. apply NoDup_text_run. constructor.
Qed.

Lemma saveText_dedup_witness :
  let s := run [SetText "note"; SaveText 1000 1000; SetText " note "] initial_state in
  holds_one (maxItems s) ∧ trim (textInput s) ≠ "" ∧
  length (filter (λ o, text o = "note") (items (saveText 2000 2001 s))) = 1%nat.
Proof.
  intros s.
  assert (Hmax : holds_one (maxItems s)) by (vm_compute; discriminate).
  assert (Ht : trim (textInput s) ≠ "") by (vm_compute; discriminate).
  split_and!; [exact Hmax | exact Ht |].
  destruct saveText_dedup as [Hsave _].
  destruct (Hsave s 2000 2001 Hmax Ht) as (_ & Hone & _).
  exact Hone.
Defined.

(** *** Content type *)

(** C3: when the type selector is at its default ["text"], the entry that
    a save stores has the type given by the priority order: url when the
    trimmed text starts with http:// or https://, else code when it
    contains a code fence or one of the keywords, else markdown when it
    contains one of the markers, else text.  The four scenarios give url,
    markdown, code and text. *)
Theorem saveText_detects_type :
  (∀ s now_id now_ts m,
     maxItems s = Num m → 1 ≤ m → trim (textInput s) ≠ "" →
     contentType s = TText →
     ∃ it rest, items (saveText now_id now_ts s) = it :: rest ∧
       ∀ ty, type it = ty ↔ type_by_priority (trim (textInput s)) ty) ∧
  (∀ now_id now_ts,
     type <$> head (items (saveText now_id now_ts (typed "https://example.com")))
       = Some TUrl ∧
     type <$> head (items (saveText now_id now_ts (typed markdown_sample)))
       = Some TMarkdown ∧
     type <$> head (items (saveText now_id now_ts (typed "const x = 1")))
       = Some TCode ∧
     type <$> head (items (saveText now_id now_ts (typed "hello world")))
       = Some TText).
Proof.
  split.
  - intros s now_id now_ts m Hmax Hm Ht Hdefault.
    eexists _, _. split; [by apply (saveText_head s now_id now_ts m) |].
    intros ty. simpl. rewrite Hdefault. simpl. apply detectContentType_iff.
  - intros now_id now_ts. by split_and!.
Qed.

Lemma saveText_detects_type_witness :
  let s := typed "see https://example.com [docs]" in
  maxItems s = Num 50 ∧ trim (textInput s) ≠ "" ∧ contentType s = TText ∧
  ∃ it rest, items (saveText 1000 1000 s) = it :: rest ∧ type it = TMarkdown.
Proof.
  intros s.
  assert (Ht : trim (textInput s) ≠ "") by (vm_compute; discriminate).
  split_and!; [reflexivity | exact Ht | reflexivity |].
  destruct saveText_detects_type as [Hsave _].
  destruct (Hsave s 1000 1000 50 eq_refl ltac:(lia) Ht eq_refl) as (it & rest & Hitems & Hty).
  exists it, rest. split; [exact Hitems |].
  apply Hty, detectContentType_iff. reflexivity.
Defined.

(** C10: choosing ["text"] in the type selector leaves the state as it is
    when nothing else was chosen, and a save made after choosing it stores
    the detected type, which is not text when the trimmed text looks like
    a url, like code or like markdown; whatever was chosen, an entry that
    a save stores with type text has a text that matches none of the three
    patterns. *)
Theorem explicit_text_is_auto_detect s now_id now_ts m :
  maxItems s = Num m → 1 ≤ m → trim (textInput s) ≠ "" →
  let t := trim (textInput s) in
  (contentType s = TText → setContentType TText s = s) ∧
  (∃ it rest,
     items (saveText now_id now_ts (setContentType TText s)) = it :: rest ∧
     type it = detectContentType t ∧
     (looks_like_url t ∨ looks_like_code t ∨ looks_like_markdown t →
      type it ≠ TText)) ∧
  (∃ it rest,
     items (saveText now_id now_ts s) = it :: rest ∧
     (type it = TText →
      ¬ looks_like_url t ∧ ¬ looks_like_code t ∧ ¬ looks_like_markdown t)).
Proof.
  intros Hmax Hm Ht t. split_and!.
  - intros Hdefault. destruct s. simpl in Hdefault. by subst.
  - eexists _, _.
    split; [by apply (saveText_head (setContentType TText s) now_id now_ts m) |].
    split; [done |]. simpl. fold t.
    intros Hlooks Htext. apply detectContentType_iff in Htext. simpl in Htext. tauto.
  - eexists _, _. split; [by apply (saveText_head s now_id now_ts m) |].
    simpl. fold t. case_bool_decide as Hdefault.
    + intros Htext. by apply detectContentType_iff in Htext.
    + done.
Qed.

Lemma explicit_text_is_auto_detect_witness :
  let s := typed "const x = 1" in
  maxItems s = Num 50 ∧ trim (textInput s) ≠ "" ∧
  ∃ it rest,
    items (saveText 1000 1000 (setContentType TText s)) = it :: rest ∧
    type it = TCode.
Proof.
  intros s.
  assert (Ht : trim (textInput s) ≠ "") by (vm_compute; discriminate).
  split_and!; [reflexivity | exact Ht |].
  destruct (explicit_text_is_auto_detect s 1000 1000 50 eq_refl ltac:(lia) Ht)
    as (_ & (it & rest & Hitems & Hty & _) & _).
  exists it, rest. split; [exact Hitems |]. rewrite Hty. reflexivity.
Defined.

(** *** Identifiers *)

(** C4, counterexample: two saves of different texts that read the same
    clock value store two entries with the same id. *)
Lemma same_millisecond_same_id :
  let s := run [SetText "a"; SaveText 1000 1000;
                SetText "b"; SaveText 1000 1000] initial_state in
  reachable s ∧ id <$> items s = ["1000"; "1000"] ∧ ¬ NoDup (id <$> items s).
Proof.
  split_and!; [apply reachable_run | done |].
  intros Hnd. vm_compute in Hnd.
  apply NoDup_cons in Hnd as [Hnotin _]. apply Hnotin. left.
Qed.

(** C4, amended: from a store with pairwise distinct ids, a save that
    creates an entry leaves the ids pairwise distinct exactly when no
    entry that it keeps behind the new one has the id written from its
    clock reading; delete and clearAll keep them distinct.  So the ids are
    pairwise distinct after every sequence of events in which the saves
    that create an entry read pairwise distinct clock values, none of
    them the reading of an id that was in the store at the start; the
    readings need not go up. *)
Theorem ids_distinct_under_distinct_readings :
  (∀ s now_id now_ts,
     NoDup (id <$> items s) → trim (textInput s) ≠ "" →
     NoDup (id <$> items (saveText now_id now_ts s)) ↔
     ∀ o, o ∈ tail (items (saveText now_id now_ts s)) → id o ≠ toString now_id) ∧
  (∀ es s,
     NoDup (id <$> items s) → NoDup (readings es s) →
     (∀ t, t ∈ readings es s → toString t ∉ id <$> items s) →
     NoDup (id <$> items (run es s))).
Proof.
  split.
  - intros s now_id now_ts Hnd Ht. rewrite saveText_items by done.
    destruct (slice0_cons_cases (newItem now_id now_ts s)
                (filter (λ it, text it ≠ trim (textInput s)) (items s))
                (maxItems s)) as [-> | (rest & -> & Hsub)].
    { split; [by intros _ o ?%elem_of_nil | intros _; constructor]. }
    assert (Hrest : NoDup (id <$> rest)).
    { eapply sublist_NoDup; [exact Hnd |].
      apply fmap_sublist. etrans; [exact Hsub | apply sublist_filter]. }
    rewrite fmap_cons, NoDup_cons, list_elem_of_fmap. simpl. split.
    + intros [Hnew _] o Ho Heq. apply Hnew. by exists o.
    + intros Hall. split; [| done]. intros (o & Heq & Ho). by apply (Hall o).
  - induction es as [|e es IH]; intros s Hnd Hread Hfresh; [done |].
    change (run (e :: es) s) with (run es (step e s)).
    destruct (step_items e s) as [Hsub | (n1 & n2 & -> & Ht & Hitems)].
    + assert (Hsuffix : ∃ pre, readings (e :: es) s = pre ++ readings es (step e s))
        by (by eexists).
      destruct Hsuffix as [pre Hpre]. rewrite Hpre in Hread, Hfresh.
      apply IH.
      * eapply sublist_NoDup; [exact Hnd | by apply fmap_sublist].
      * by apply NoDup_app in Hread as (_ & _ & ?).
      * intros t Ht Hin. apply (Hfresh t); [apply elem_of_app; by right |].
        eapply elem_of_sublist; [exact Hin | by apply fmap_sublist].
    + assert (Hcons : readings (SaveText n1 n2 :: es) s
                      = n1 :: readings es (step (SaveText n1 n2) s)).
      { simpl. apply truthy_spec in Ht. by rewrite Ht. }
      rewrite Hcons in Hread, Hfresh. apply NoDup_cons in Hread as [Hn1 Hread].
      assert (Hsub : items (step (SaveText n1 n2) s)
                     `sublist_of` newItem n1 n2 s :: items s).
      { rewrite Hitems. etrans; [apply slice0_sublist |].
        apply sublist_skip, sublist_filter. }
      apply IH; [| done |].
      * eapply sublist_NoDup; [| apply fmap_sublist, Hsub].
        rewrite fmap_cons. apply NoDup_cons. split; [| done].
        apply (Hfresh n1). left.
      * intros t Ht' Hin.
        eapply elem_of_sublist in Hin; [| apply fmap_sublist, Hsub].
        rewrite fmap_cons in Hin. apply elem_of_cons in Hin as [Heq | Hin].
        -- apply toString_inj in Heq. by subst.
        -- apply (Hfresh t); [by right | done].
Qed.

Lemma ids_distinct_under_distinct_readings_witness :
  let es := [SetText "a"; SaveText 2000 2000; SetText "b"; SaveText 1000 1000;
             SetText "  "; SaveText 1000 1000; DeleteItem "2000"] in
  NoDup (readings es initial_state) ∧
  NoDup (id <$> items (run es initial_state)).
Proof.
  intros es.
  assert (Hread : NoDup (readings es initial_state)).
  { vm_compute. apply NoDup_cons. split.
    - intros H. apply list_elem_of_singleton in H. discriminate.
    - apply NoDup_singleton. }
  split; [exact Hread |].
  destruct ids_distinct_under_distinct_readings as [_ Hrun].
  apply (Hrun es initial_state); [constructor | exact Hread |].
  intros t _ H. vm_compute in H. by apply elem_of_nil in H.
Defined.

(** *** The maxItems setting *)

(** C5, counterexample: typing 500 in the settings field sets maxItems to
    500, and loading the persisted strings ["0"] and ["abc"] sets it to 0
    and to NaN; none of the three is an integer from 1 to 200. *)
Lemma setting_leaves_range :
  maxItems (changeMaxItems "500" initial_state) = Num 500 ∧
  ¬ in_range (maxItems (changeMaxItems "500" initial_state)) ∧
  (∃ s, mount parse_fails parse_fails
          {| clipboard_items := None; clipboard_max_items := Some "0";
             clipboard_tags := None |} = Returned s ∧
        maxItems s = Num 0 ∧ ¬ in_range (maxItems s)) ∧
  (∃ s, mount parse_fails parse_fails
          {| clipboard_items := None; clipboard_max_items := Some "abc";
             clipboard_tags := None |} = Returned s ∧
        maxItems s = NaN ∧ ¬ in_range (maxItems s)).
Proof.
  split_and!.
  - done.
  - intros (m & Hm & ?). vm_compute in Hm. injection Hm as <-. lia.
  - eexists. split_and!; [done.. |].
    intros (m & Hm & ?). vm_compute in Hm. injection Hm as <-. lia.
  - eexists. split_and!; [done.. |].
    intros (m & Hm & ?). vm_compute in Hm. discriminate.
Qed.

(** C5, amended: every user update sets maxItems to a number of at least
    1, never NaN: to 50 when the input is not a parsable number or parses
    to 0, to 1 when it parses to a negative number, and to the typed
    number itself when that is within 1 to 200.  Loading a setting within
    1 to 200 that the component persisted gives back that setting.
    Nothing is said of typed numbers above 200 or of persisted strings
    that the component did not write. *)
Theorem maxItems_setting_by_design :
  (∀ v s,
     let r := maxItems (changeMaxItems v s) in
     holds_one r ∧
     (parseInt v None = NaN ∨ parseInt v None = Num 0 → r = Num 50) ∧
     (∀ z, parseInt v None = Num z → z < 0 → r = Num 1) ∧
     (∀ z, parseInt v None = Num z → 1 ≤ z ≤ 200 → r = Num z ∧ in_range r)) ∧
  (∀ parse_items parse_tags exponential st s0 s z,
     maxItems s0 = Num z → 1 ≤ z ≤ 200 →
     clipboard_max_items st = persistMaxItems exponential s0 →
     ∃ s', load parse_items parse_tags st s = Returned s' ∧
           maxItems s' = Num z ∧ in_range (maxItems s')).
Proof.
  split.
  - intros v s r.
    assert (Hdef : r = Math_max (Num 1) (or_else (parseInt v None) (Num 50)))
      by reflexivity.
    pose proof (Math_max_or_else (parseInt v None)) as H.
    cbv zeta in H. rewrite <-Hdef in H. clearbody r.
    destruct H as (Hone & Hnan & Hnum & _).
    split_and!; [done | done | |].
    + intros z Hz Hz1. rewrite (Hnum z Hz) by lia. f_equal. lia.
    + intros z Hz Hz1.
      assert (Hr : r = Num z) by (rewrite (Hnum z Hz) by lia; f_equal; lia).
      split; [done |]. rewrite Hr. by exists z.
  - intros parse_items parse_tags exponential st s0 s z Hz Hrange Hst.
    destruct (load_returns parse_items parse_tags st s) as (s' & Hload & _ & Hmax & _).
    exists s'. split; [done |].
    unfold persistMaxItems, Number_toString in Hst. rewrite Hz in Hst.
    change (10 ^ 21) with 1000000000000000000000 in Hst.
    destruct (Z.ltb_spec (Z.abs z) 1000000000000000000000); [| lia].
    rewrite Hst, present_Some, parseInt_toString in Hmax;
      [| change (2 ^ 53) with 9007199254740992; lia | apply toString_truthy].
    split; [done |]. rewrite Hmax. by exists z.
Qed.

Lemma maxItems_setting_by_design_witness :
  let s0 := changeMaxItems "120" initial_state in
  let st := {| clipboard_items := None;
               clipboard_max_items := persistMaxItems (λ _, "") s0;
               clipboard_tags := None |} in
  maxItems s0 = Num 120 ∧ 1 ≤ 120 ≤ 200 ∧
  ∃ s', load parse_fails parse_fails st initial_state = Returned s' ∧
        maxItems s' = Num 120.
Proof.
  intros s0 st. split_and!; [reflexivity | lia | lia |].
  destruct maxItems_setting_by_design as [_ Hload].
  destruct (Hload parse_fails parse_fails (λ _, "") st s0 initial_state 120
              eq_refl ltac:(lia) eq_refl)
    as (s' & Hs' & Hmax & _).
  exists s'. split; [exact Hs' | exact Hmax].
Defined.

(** *** Preview *)

(** C6: with a capacity of at least one entry and a text that is not blank,
    the entry that a save stores has the trimmed text as its text; its
    preview is that text when it has at most 50 characters, and otherwise
    the first 50 characters of it followed by three dots; the preview
    has at most 53 characters. *)
Theorem saveText_preview s now_id now_ts m :
  maxItems s = Num m → 1 ≤ m → trim (textInput s) ≠ "" →
  ∃ it rest, items (saveText now_id now_ts s) = it :: rest ∧
    text it = trim (textInput s) ∧
    ((String.length (text it) ≤ 50)%nat → preview it = text it) ∧
    ((50 < String.length (text it))%nat →
       ∃ first50 r, text it = first50 +:+ r ∧ String.length first50 = 50%nat ∧
                    preview it = first50 +:+ "...") ∧
    (String.length (preview it) ≤ 53)%nat.
Proof.
  intros Hmax Hm Ht.
  eexists _, _. split; [by apply (saveText_head s now_id now_ts m) |].
  split; [done |]. apply createPreview_spec.
Qed.

Lemma saveText_preview_witness :
  let s := typed "  The quick brown fox jumps over the lazy dog, twice over.  " in
  maxItems s = Num 50 ∧ trim (textInput s) ≠ "" ∧
  ∃ it rest, items (saveText 1000 1000 s) = it :: rest ∧
    (String.length (preview it) ≤ 53)%nat.
Proof.
  intros s.
  assert (Ht : trim (textInput s) ≠ "") by (vm_compute; discriminate).
  split_and!; [reflexivity | exact Ht |].
  destruct (saveText_preview s 1000 1000 50 eq_refl ltac:(lia) Ht)
    as (it & rest & Hitems & _ & _ & _ & Hlen).
  exists it, rest. split; [exact Hitems | exact Hlen].
Defined.

(** *** Blank input *)

(** C7: a save of a text whose trim is empty returns the state it was
    given: no entry is created, the entry list and every other cell are
    as before, and the handler, a total function, raises nothing. *)
Theorem saveText_blank_noop s now_id now_ts :
  trim (textInput s) = "" → saveText now_id now_ts s = s.
Proof. apply saveText_blank. Qed.

Lemma saveText_blank_noop_witness :
  let s := run [SetText "kept"; SaveText 1000 1000; SetText "   "] initial_state in
  trim (textInput s) = "" ∧ saveText 2000 2000 s = s.
Proof.
  intros s. assert (Ht : trim (textInput s) = "") by reflexivity.
  split; [exact Ht | exact (saveText_blank_noop s 2000 2000 Ht)].
Defined.

(** *** Loading *)

(** C8: whatever the storage holds and whatever [JSON.parse] does, the
    loading effect run on mount returns a state; when parsing the stored
    entry list throws, the entry list of that state is empty, and when
    parsing the stored tag vocabulary throws, its vocabulary is the
    predefined tag list. *)
Theorem mount_recovers_from_corrupt_json
    (parse_items : string → outcome (list ClipboardItem))
    (parse_tags : string → outcome (list string)) (st : Storage) :
  ∃ s, mount parse_items parse_tags st = Returned s ∧
    (∀ v e, clipboard_items st = Some v → parse_items v = Thrown e →
            items s = []) ∧
    (∀ v e, clipboard_tags st = Some v → parse_tags v = Thrown e →
            allTags s = PREDEFINED_TAGS).
Proof.
  destruct (load_returns parse_items parse_tags st initial_state)
    as (s & Hload & Hitems & _ & Htags).
  exists s. split; [done |]. split.
  - intros v e Hv He. rewrite Hitems, Hv. simpl.
    destruct (truthy v); [by rewrite He | done].
  - intros v e Hv He. rewrite Htags, Hv. simpl.
    destruct (truthy v); [by rewrite He | done].
Qed.

(** *** Search *)



(** ** Further facts about the built-ins *)

Section TrimFacts.

Implicit Types (s : string) (c : ascii).

Lemma trimStart_head s :
  trimStart s = "" ∨ ∃ c r, trimStart s = String c r ∧ isWhiteSpace c = false.
Proof.
  induction s as [|c s IH]; simpl; [by left |].
  destruct (isWhiteSpace c) eqn:Hc; [done | right; eauto].
Qed.

Lemma trimStart_fixed c r : isWhiteSpace c = false → trimStart (String c r) = String c r.
Proof. intros H. simpl. by rewrite H. Qed.

Lemma trimEnd_head c r :
  isWhiteSpace c = false → ∃ r', trimEnd (String c r) = String c r'.
Proof. intros H. simpl. rewrite H. destruct (trimEnd r); eauto. Qed.

Lemma trimEnd_idemp s : trimEnd (trimEnd s) = trimEnd s.
Proof.
  induction s as [|c s IH]; [done |]. simpl.
  destruct (trimEnd s) as [|d t] eqn:Ht.
  - destruct (isWhiteSpace c) eqn:Hc; [done |]. simpl. by rewrite Hc.
  - change (trimEnd (String c (String d t))) with
      (match trimEnd (String d t) with
       | EmptyString => if isWhiteSpace c then EmptyString else String c EmptyString
       | r' => String c r'
       end).
    by rewrite IH.
Qed.

(** Trimming leaves nothing to trim. *)
Lemma trim_no_outer_space s : no_outer_space (trim s).
Proof.
  unfold no_outer_space, trim. split; [| apply trimEnd_idemp].
  destruct (trimStart_head s) as [-> | (c & r & -> & Hc)]; [done |].
  destruct (trimEnd_head c r Hc) as [r' ->]. by apply trimStart_fixed.
Qed.

Lemma trim_idemp s : trim (trim s) = trim s.
Proof.
  destruct (trim_no_outer_space s) as [Hstart Hend].
  unfold trim at 1. by rewrite Hstart, Hend.
Qed.

Lemma lowerChar_idemp c : lowerChar (lowerChar c) = lowerChar c.
Proof. by destruct c as [[] [] [] [] [] [] [] []]. Qed.

Lemma toLowerCase_idemp s : toLowerCase (toLowerCase s) = toLowerCase s.
Proof.
  induction s as [|c s IH]; simpl; [done |]. by rewrite lowerChar_idemp, IH.
Qed.


Lemma splitHead_app sep d r :
  (∀ a b, d ≠ a +:+ String sep b) →
  splitHead sep (d +:+ String sep r) = d.
Proof.
  induction d as [|c d IH]; intros Hd; simpl.
  - by rewrite bool_decide_true.
  - rewrite bool_decide_false.
    + f_equal. apply IH. intros a b ->. by apply (Hd (String c a) b).
    + intros ->. by apply (Hd "" d).
Qed.

End TrimFacts.

Section CountingFacts.

Context {A B : Type} `{EqDecision B} (f : A → B).
Implicit Types (l : list A) (x : A) (y : B).

(** Filtering out a key that does not occur changes nothing. *)
Lemma filter_absent_key l y :
  y ∉ f <$> l → filter (λ o, f o ≠ y) l = l.
Proof.
  induction l as [|o l IH]; [done |]. rewrite fmap_cons, not_elem_of_cons.
  intros [Hne Hl]. rewrite filter_cons_True by done. by rewrite IH.
Qed.

(** With distinct keys, filtering out a key that occurs removes one
    element. *)
Lemma filter_present_key l x :
  NoDup (f <$> l) → x ∈ l →
  (length (filter (λ o, f o ≠ f x) l) + 1)%nat = length l.
Proof.
  induction l as [|o l IH]; [by intros _ ?%elem_of_nil |].
  rewrite fmap_cons, NoDup_cons. intros [Ho Hnd] [-> | Hx]%elem_of_cons.
  - rewrite filter_cons_False by (by intros ?).
    rewrite filter_absent_key by done. simpl. lia.
  - assert (f o ≠ f x) by (intros Heq; apply Ho; rewrite Heq; by apply list_elem_of_fmap_2).
    rewrite filter_cons_True by done. simpl. rewrite <-(IH Hnd Hx). lia.
Qed.

(** Distinct keys tell the elements apart. *)
Lemma NoDup_key_inj l x1 x2 :
  NoDup (f <$> l) → x1 ∈ l → x2 ∈ l → f x1 = f x2 → x1 = x2.
Proof.
  induction l as [|o l IH]; [by intros _ ?%elem_of_nil |].
  rewrite fmap_cons, NoDup_cons.
  intros [Ho Hnd] [-> | H1]%elem_of_cons [-> | H2]%elem_of_cons Heq; [done | | | by apply IH].
  - destruct Ho. rewrite Heq. by apply list_elem_of_fmap_2.
  - destruct Ho. rewrite <-Heq. by apply list_elem_of_fmap_2.
Qed.


End CountingFacts.

(** ** Further properties of the store *)

Section MoreComponentFacts.

Implicit Types (s : State) (e : event) (it : ClipboardItem).

Lemma setItems_same s : setItems (items s) s = s.
Proof. by destruct s. Qed.

Lemma step_allTags e s :
  allTags (step e s) = allTags s ∨ e = AddTag.
Proof.
  destruct e; simpl; try by left.
  - left. unfold selectTag. by destruct (truthy _).
  - by right.
  - left. unfold saveText. by destruct (truthy _).
Qed.

Lemma newItem_well_formed s now_id now_ts :
  trim (textInput s) ≠ "" → well_formed_entry (newItem now_id now_ts s).
Proof. intros Ht. split_and!; [done | apply trim_idemp | done]. Qed.

Lemma newest_first_sublist (l k : list ClipboardItem) :
  k `sublist_of` l → newest_first l → newest_first k.
Proof.
  induction 1 as [|x k l Hsub IH|x k l Hsub IH]; simpl; [done | |].
  - intros [Hall Hl]. split; [| by apply IH].
    apply Forall_forall. intros o Ho. rewrite Forall_forall in Hall.
    apply Hall. by eapply elem_of_sublist.
  - intros [_ Hl]. by apply IH.
Qed.


End MoreComponentFacts.

(** *** Deleting *)

(** X1: after a delete the list holds exactly the earlier entries whose id
    is not the deleted one, in their earlier order, and deleting the same
    id again changes nothing. *)
Theorem deleteItem_removes id0 s :
  (∀ it, it ∈ items (deleteItem id0 s) ↔ it ∈ items s ∧ id it ≠ id0) ∧
  items (deleteItem id0 s) `sublist_of` items s ∧
  deleteItem id0 (deleteItem id0 s) = deleteItem id0 s.
Proof.
  split_and!.
  - intros it. simpl. rewrite list_elem_of_filter. tauto.
  - apply sublist_filter.
  - unfold deleteItem, setItems. simpl.
    by rewrite (list_filter_filter_l (λ item, id item ≠ id0)).
Qed.

(** X2: deleting an id that no entry has leaves the whole state as it
    is. *)
Theorem deleteItem_absent id0 s :
  (∀ it, it ∈ items s → id it ≠ id0) → deleteItem id0 s = s.
Proof.
  intros Habs. unfold deleteItem.
  rewrite (filter_absent_key id); [apply setItems_same |].
  intros (it & -> & Hit)%list_elem_of_fmap. by apply (Habs it).
Qed.

Lemma deleteItem_absent_witness :
  let s := run [SetText "a"; SaveText 1000 1000] initial_state in
  (∀ it, it ∈ items s → id it ≠ "7") ∧ deleteItem "7" s = s.
Proof.
  intros s.
  assert (Habs : ∀ it, it ∈ items s → id it ≠ "7").
  { intros it Hit. vm_compute in Hit. apply list_elem_of_singleton in Hit.
    subst it. vm_compute. discriminate. }
  split; [exact Habs | exact (deleteItem_absent "7" s Habs)].
Defined.

(** X3: when the ids are pairwise distinct, deleting the id of a stored
    entry removes that entry and no other: the list gets shorter by one
    and every other entry stays. *)
Theorem deleteItem_one_entry s it :
  NoDup (id <$> items s) → it ∈ items s →
  (length (items (deleteItem (id it) s)) + 1)%nat = length (items s) ∧
  (it ∉ items (deleteItem (id it) s)) ∧
  (∀ o, o ∈ items s → o ≠ it → o ∈ items (deleteItem (id it) s)).
Proof.
  intros Hnd Hit. split_and!.
  - simpl. by apply (filter_present_key id).
  - simpl. rewrite list_elem_of_filter. tauto.
  - intros o Ho Hne. simpl. apply list_elem_of_filter. split; [| done].
    intros Heq. apply Hne.
    by apply (NoDup_key_inj id (items s)).
Qed.

Lemma deleteItem_one_entry_witness :
  let s := run [SetText "a"; SaveText 1000 1000;
                SetText "b"; SaveText 2000 2000] initial_state in
  let it := newItem 1000 1000 (typed "a") in
  NoDup (id <$> items s) ∧ it ∈ items s ∧
  (length (items (deleteItem (id it) s)) + 1)%nat = length (items s).
Proof.
  intros s it.
  assert (Hnd : NoDup (id <$> items s)).
  { vm_compute. apply NoDup_cons. split.
    - intros H. apply list_elem_of_singleton in H. discriminate.
    - apply NoDup_singleton. }
  assert (Hit : it ∈ items s) by (vm_compute; right; left).
  split_and!; [exact Hnd | exact Hit |].
  exact (proj1 (deleteItem_one_entry s it Hnd Hit)).
Defined.

(** *** Saving *)

(** X4: a save that creates an entry empties the text box, clears the tag
    selection and puts the type selector back on ["text"], and leaves the
    search query, the tag input, the capacity, the vocabulary and the
    filter switch alone; since the selection is empty the tag filter lets
    every entry through afterwards, and a second save right after it
    changes nothing. *)
Theorem saveText_resets_form s now_id now_ts :
  trim (textInput s) ≠ "" →
  let s' := saveText now_id now_ts s in
  textInput s' = "" ∧ selectedTags s' = [] ∧ contentType s' = TText ∧
  searchQuery s' = searchQuery s ∧ newTag s' = newTag s ∧
  maxItems s' = maxItems s ∧ allTags s' = allTags s ∧
  isTagFilterActive s' = isTagFilterActive s ∧
  (∀ it, matchesTags s' it = true) ∧
  (∀ now_id' now_ts', saveText now_id' now_ts' s' = s').
Proof.
  intros Ht s'. unfold s', saveText.
  apply truthy_spec in Ht. rewrite Ht. simpl.
  split_and!; try done.
  intros it. unfold matchesTags. simpl. by rewrite orb_true_r.
Qed.

Lemma saveText_resets_form_witness :
  let s := run [SelectTag "Work"; ToggleTagFilter; SetContentType TCode;
                SetText "x = 1"] initial_state in
  trim (textInput s) ≠ "" ∧
  saveText 3 3 (saveText 1 2 s) = saveText 1 2 s.
Proof.
  intros s.
  assert (Ht : trim (textInput s) ≠ "") by (vm_compute; discriminate).
  split; [exact Ht |].
  destruct (saveText_resets_form s 1 2 Ht) as (_ & _ & _ & _ & _ & _ & _ & _ & _ & Hagain).
  exact (Hagain 3 3).
Defined.

(** X5: when a type other than ["text"] is chosen, the stored entry has
    that type whatever its text looks like, and in every case it carries
    the tags that were selected. *)
Theorem saveText_explicit_type s now_id now_ts m :
  maxItems s = Num m → 1 ≤ m → trim (textInput s) ≠ "" →
  ∃ it rest, items (saveText now_id now_ts s) = it :: rest ∧
    tags it = selectedTags s ∧
    (contentType s ≠ TText → type it = contentType s).
Proof.
  intros Hmax Hm Ht.
  eexists _, _. split; [by apply (saveText_head s now_id now_ts m) |].
  split; [done |]. intros Hty. simpl. by rewrite bool_decide_false.
Qed.

Lemma saveText_explicit_type_witness :
  let s := run [SetContentType TCode; SelectTag "Links";
                SetText "https://example.com"] initial_state in
  maxItems s = Num 50 ∧ trim (textInput s) ≠ "" ∧
  ∃ it rest, items (saveText 1 1 s) = it :: rest ∧
    tags it = ["Links"] ∧ type it = TCode.
Proof.
  intros s.
  assert (Ht : trim (textInput s) ≠ "") by (vm_compute; discriminate).
  split_and!; [reflexivity | exact Ht |].
  destruct (saveText_explicit_type s 1 1 50 eq_refl ltac:(lia) Ht)
    as (it & rest & Hitems & Htags & Hty).
  exists it, rest. split_and!; [exact Hitems | exact Htags |].
  apply Hty. discriminate.
Defined.

(** X6: with pairwise distinct texts and a capacity of at least one, a
    save of a text that is already stored replaces its entry, so the list
    keeps its length up to the capacity, and a save of a text that is not
    stored adds one entry up to the capacity. *)
Theorem saveText_length s now_id now_ts m :
  maxItems s = Num m → 1 ≤ m → trim (textInput s) ≠ "" →
  NoDup (text <$> items s) →
  let t := trim (textInput s) in
  let n := Z.of_nat (length (items s)) in
  let n' := Z.of_nat (length (items (saveText now_id now_ts s))) in
  (t ∈ text <$> items s → n' = Z.min m n) ∧
  (t ∉ text <$> items s → n' = Z.min m (n + 1)).
Proof.
  intros Hmax Hm Ht Hnd t n n'. unfold n'.
  rewrite saveText_items, Hmax, slice0_length by (done || lia).
  simpl length. split.
  - intros (o & Ho & Hin)%list_elem_of_fmap. fold t. rewrite Ho.
    pose proof (filter_present_key text (items s) o Hnd Hin). unfold n. lia.
  - intros Habs. fold t. rewrite (filter_absent_key text) by done. unfold n. lia.
Qed.

Lemma saveText_length_witness :
  let s := run [SetText "a"; SaveText 1 1; SetText "b"; SaveText 2 2;
                SetText " a "] initial_state in
  maxItems s = Num 50 ∧ trim (textInput s) ≠ "" ∧ NoDup (text <$> items s) ∧
  length (items (saveText 3 3 s)) = 2%nat.
Proof.
  intros s.
  assert (Ht : trim (textInput s) ≠ "") by (vm_compute; discriminate).
  assert (Hnd : NoDup (text <$> items s)).
  { vm_compute. apply NoDup_cons. split.
    - intros H. apply list_elem_of_singleton in H. discriminate.
    - apply NoDup_singleton. }
  split_and!; [reflexivity | exact Ht | exact Hnd |].
  destruct (saveText_length s 3 3 50 eq_refl ltac:(lia) Ht Hnd) as [Hin _].
  assert (Hmem : trim (textInput s) ∈ text <$> items s) by (vm_compute; right; left).
  apply Nat2Z.inj. rewrite (Hin Hmem). reflexivity.
Defined.

(** X7: saving a new text and then deleting the id it was given brings
    back the earlier entry list, when the list was not full, no stored
    entry had that text and no stored entry had that id. *)
Theorem deleteItem_saveText_restores s now_id now_ts m :
  maxItems s = Num m → Z.of_nat (length (items s)) < m →
  trim (textInput s) ≠ "" →
  (∀ it, it ∈ items s → text it ≠ trim (textInput s)) →
  (∀ it, it ∈ items s → id it ≠ toString now_id) →
  items (deleteItem (toString now_id) (saveText now_id now_ts s)) = items s.
Proof.
  intros Hmax Hroom Ht Htext Hid.
  assert (Hm : 1 ≤ m) by lia.
  unfold deleteItem. simpl.
  rewrite (saveText_head s now_id now_ts m) by done.
  rewrite filter_cons_False by (by intros ?).
  rewrite (filter_absent_key text).
  - assert (Hall : slice0 (items s) (Num (m - 1)) = items s).
    { apply prefix_length_eq; [apply slice0_prefix |].
      apply Nat2Z.inj_le. rewrite slice0_length by lia. lia. }
    rewrite Hall. rewrite (filter_absent_key id); [done |].
    intros (it & Heq & Hit)%list_elem_of_fmap. by apply (Hid it).
  - intros (it & Heq & Hit)%list_elem_of_fmap.
    apply (Htext it Hit). symmetry. exact Heq.
Qed.

Lemma deleteItem_saveText_restores_witness :
  let s := run [SetText "a"; SaveText 1000 1000; SetText "b"] initial_state in
  maxItems s = Num 50 ∧ trim (textInput s) ≠ "" ∧
  items (deleteItem (toString 2000) (saveText 2000 2000 s)) = items s.
Proof.
  intros s.
  assert (Ht : trim (textInput s) ≠ "") by (vm_compute; discriminate).
  split_and!; [reflexivity | exact Ht |].
  apply (deleteItem_saveText_restores s 2000 2000 50 eq_refl).
  - vm_compute. reflexivity.
  - exact Ht.
  - intros it Hit. vm_compute in Hit. apply list_elem_of_singleton in Hit.
    subst it. vm_compute. discriminate.
  - intros it Hit. vm_compute in Hit. apply list_elem_of_singleton in Hit.
    subst it. vm_compute. discriminate.
Defined.

(** X20: white space around the typed text does not matter to a save:
    saving a text that is not blank and saving its trimmed form give the
    same state, entry, detected type and preview included. *)
Theorem saveText_ignores_outer_space v s now_id now_ts :
  trim v ≠ "" →
  saveText now_id now_ts (setText (trim v) s) = saveText now_id now_ts (setText v s).
Proof.
  intros Hv. unfold saveText, newItem. simpl. rewrite trim_idemp.
  apply truthy_spec in Hv. by rewrite Hv.
Qed.

Lemma saveText_ignores_outer_space_witness :
  trim "  https://example.com  " ≠ "" ∧
  saveText 1 1 (setText (trim "  https://example.com  ") initial_state)
  = saveText 1 1 (setText "  https://example.com  " initial_state).
Proof.
  assert (Hv : trim "  https://example.com  " ≠ "") by (vm_compute; discriminate).
  split; [exact Hv |].
  exact (saveText_ignores_outer_space "  https://example.com  " initial_state 1 1 Hv).
Defined.

(** *** What every stored entry looks like *)

(** X8: every event keeps the stored entries well formed: their text is
    not empty and has no white space at either end, and their preview is
    the one derived from their text, so it has at most 53 characters. *)
Theorem entries_stay_well_formed es s :
  Forall well_formed_entry (items s) →
  Forall well_formed_entry (items (run es s)) ∧
  Forall (λ it, no_outer_space (text it) ∧ (String.length (preview it) ≤ 53)%nat)
         (items (run es s)).
Proof.
  intros Hs.
  assert (Hrun : Forall well_formed_entry (items (run es s))).
  { induction es as [|e es IH] using rev_ind; [done |].
    rewrite run_snoc. set (s1 := run es s) in *.
    destruct (step_items e s1) as [Hsub | (n1 & n2 & _ & Ht & ->)].
    - apply Forall_forall. intros it Hit. rewrite Forall_forall in IH.
      apply IH. by eapply elem_of_sublist.
    - apply Forall_forall. intros it Hit.
      eapply elem_of_sublist in Hit; [| apply slice0_sublist].
      apply elem_of_cons in Hit as [-> | Hit]; [by apply newItem_well_formed |].
      rewrite Forall_forall in IH. apply IH.
      by apply list_elem_of_filter in Hit as [_ ?]. }
  split; [done |].
  eapply Forall_impl; [exact Hrun |].
  intros it (_ & Htrim & Hprev). split.
  - rewrite <-Htrim. apply trim_no_outer_space.
  - rewrite Hprev. apply createPreview_spec.
Qed.

Lemma entries_stay_well_formed_witness :
  let es := [SetText "  hello  "; SaveText 1 1; SetText "x"; SaveText 2 2] in
  Forall well_formed_entry (items initial_state) ∧
  Forall well_formed_entry (items (run es initial_state)).
Proof.
  intros es.
  assert (H0 : Forall well_formed_entry (items initial_state)) by constructor.
  split; [exact H0 | exact (proj1 (entries_stay_well_formed es initial_state H0))].
Defined.

(** X9: when the clock readings that saves take for their timestamps never
    go down, the entries of a page that started empty are ordered newest
    first, whatever else happens in between. *)
Theorem newest_first_under_monotone_clock es t :
  clock_nondecreasing t es → newest_first (items (run es initial_state)).
Proof.
  intros Hclock.
  enough (Hgen : ∀ s t, clock_nondecreasing t es →
            newest_first (items s) → Forall (λ o, timestamp o ≤ t) (items s) →
            newest_first (items (run es s))).
  { apply (Hgen initial_state t Hclock); by constructor. }
  clear t Hclock. induction es as [|e es IH]; intros s t Hclock Hnf Hup; [done |].
  change (run (e :: es) s) with (run es (step e s)).
  assert ((∃ n1 n2, e = SaveText n1 n2) ∨ ¬ ∃ n1 n2, e = SaveText n1 n2)
    as [(n1 & n2 & ->) | Hother]
    by (destruct e; first [by left; eauto | by right; intros (? & ? & ?)]).
  - destruct Hclock as [Ht Hclock]. apply (IH _ n2 Hclock).
    + destruct (step_items (SaveText n1 n2) s) as [Hsub | (? & ? & [= <- <-] & _ & ->)].
      * by eapply newest_first_sublist.
      * eapply newest_first_sublist; [apply slice0_sublist |]. simpl. split.
        -- apply Forall_forall. intros o [_ Ho]%list_elem_of_filter.
           rewrite Forall_forall in Hup. specialize (Hup o Ho). simpl in Hup. lia.
        -- eapply newest_first_sublist; [apply sublist_filter | done].
    + apply Forall_forall. intros o Ho.
      destruct (step_items (SaveText n1 n2) s) as [Hsub | (? & ? & [= <- <-] & _ & Heq)].
      * rewrite Forall_forall in Hup.
        specialize (Hup o (elem_of_sublist _ _ _ Ho Hsub)). simpl in Hup. lia.
      * rewrite Heq in Ho. eapply elem_of_sublist in Ho; [| apply slice0_sublist].
        apply elem_of_cons in Ho as [-> | Ho]; [simpl; lia |].
        apply list_elem_of_filter in Ho as [_ Ho].
        rewrite Forall_forall in Hup. specialize (Hup o Ho). simpl in Hup. lia.
  - destruct (step_items e s) as [Hsub | (n1 & n2 & -> & _)];
      [| destruct Hother; eauto].
    apply (IH _ t).
    + destruct e; try done. destruct Hother; eauto.
    + by eapply newest_first_sublist.
    + apply Forall_forall. intros o Ho. rewrite Forall_forall in Hup.
      apply Hup. by eapply elem_of_sublist.
Qed.

Lemma newest_first_under_monotone_clock_witness :
  let es := [SetText "a"; SaveText 1000 1001; SetText "b"; SaveText 1001 1001;
             SetText "a"; SaveText 1500 1502; DeleteItem "1001"] in
  clock_nondecreasing 0 es ∧ newest_first (items (run es initial_state)).
Proof.
  intros es.
  assert (Hclock : clock_nondecreasing 0 es) by (simpl; lia).
  split; [exact Hclock | exact (newest_first_under_monotone_clock es 0 Hclock)].
Defined.

(** *** Tags *)



(** X11: [addTag] changes nothing when the trimmed input is empty or
    already in the vocabulary; otherwise it appends the trimmed input to
    the vocabulary and to the selection and empties the input.  It keeps a
    vocabulary without repetitions that way, and running it twice is
    running it once. *)
Theorem addTag_vocabulary s :
  let t := trim (newTag s) in
  (t = "" ∨ t ∈ allTags s → addTag s = s) ∧
  (t ≠ "" → t ∉ allTags s →
     allTags (addTag s) = allTags s ++ [t] ∧
     selectedTags (addTag s) = selectedTags s ++ [t] ∧
     newTag (addTag s) = "") ∧
  (NoDup (allTags s) → NoDup (allTags (addTag s))) ∧
  addTag (addTag s) = addTag s.
Proof.
  intros t. unfold addTag. fold t.
  destruct (decide (t = "")) as [Hempty | Hfull].
  { rewrite Hempty. simpl. fold t. rewrite Hempty. simpl. split_and!; done. }
  assert (Htruthy : truthy t = true) by (by apply truthy_spec).
  rewrite Htruthy. simpl. case_bool_decide as Hin; simpl.
  - fold t. rewrite Htruthy. simpl. rewrite bool_decide_true by done. simpl.
    split_and!; done.
  - split_and!; [by intros [? | ?] | done | | done].
    intros Hnd. apply NoDup_app. split_and!; [done | | apply NoDup_singleton].
    intros x Hx ->%list_elem_of_singleton. done.
Qed.

Lemma addTag_vocabulary_witness :
  let s := run [SetNewTag "  Ideas "] initial_state in
  trim (newTag s) ≠ "" ∧ (trim (newTag s) ∉ allTags s) ∧
  allTags (addTag s) = PREDEFINED_TAGS ++ ["Ideas"].
Proof.
  intros s.
  assert (Hfull : trim (newTag s) ≠ "") by (vm_compute; discriminate).
  assert (Hnew : trim (newTag s) ∉ allTags s).
  { intros H. vm_compute in H.
    repeat (apply elem_of_cons in H as [H | H]; [discriminate |]).
    by apply elem_of_nil in H. }
  split_and!; [exact Hfull | exact Hnew |].
  destruct (addTag_vocabulary s) as (_ & Hadd & _).
  exact (proj1 (Hadd Hfull Hnew)).
Defined.

(** X12: from any state, no sequence of events shrinks or reorders the tag
    vocabulary: the earlier vocabulary stays at its front; and a vocabulary
    without repetitions stays without repetitions. *)
Theorem vocabulary_only_grows es s :
  allTags s `prefix_of` allTags (run es s) ∧
  (NoDup (allTags s) → NoDup (allTags (run es s))).
Proof.
  induction es as [|e es [IHpre IHnd]] using rev_ind; [done |].
  rewrite run_snoc. set (s1 := run es s) in *.
  destruct (step_allTags e s1) as [-> | ->]; [done |].
  simpl. destruct (addTag_vocabulary s1) as (Hsame & Hadd & Hnd & _).
  split; [| by intros ?; apply Hnd, IHnd].
  destruct (decide (trim (newTag s1) = "" ∨ trim (newTag s1) ∈ allTags s1)) as [H | H].
  - by rewrite Hsame.
  - destruct Hadd as (-> & _); [tauto.. |]. by apply prefix_app_r.
Qed.

Lemma vocabulary_only_grows_witness :
  let es := [SetNewTag "Ideas"; AddTag; SetNewTag " Work "; AddTag;
             SetNewTag "Ideas"; AddTag] in
  NoDup (allTags initial_state) ∧ NoDup (allTags (run es initial_state)).
Proof.
  intros es.
  assert (Hnd : NoDup (allTags initial_state)).
  { vm_compute.
    repeat (apply NoDup_cons; split;
      [intros H; repeat (apply elem_of_cons in H as [H | H]; [discriminate |]);
       by apply elem_of_nil in H |]).
    apply NoDup_nil_2. }
  split; [exact Hnd | exact (proj2 (vocabulary_only_grows es initial_state) Hnd)].
Defined.

(** X13: selecting a tag that was not selected and removing it again gives
    back the state; [removeTag] takes out every occurrence of the tag and
    keeps the other selected tags in order. *)
Theorem removeTag_selectTag v s :
  (v ∉ selectedTags s → removeTag v (selectTag v s) = s) ∧
  (v ∉ selectedTags (removeTag v s)) ∧
  (∀ w, w ≠ v → w ∈ selectedTags s → w ∈ selectedTags (removeTag v s)) ∧
  selectedTags (removeTag v s) `sublist_of` selectedTags s.
Proof.
  split_and!.
  - intros Hv.
    assert (Hsame : filter (λ tag, tag ≠ v) (selectedTags s) = selectedTags s).
    { apply (filter_absent_key (λ x : string, x)). by rewrite list_fmap_id. }
    unfold removeTag, selectTag. destruct (truthy v); simpl.
    + rewrite filter_app, Hsame, filter_cons_False by (by intros ?).
      rewrite filter_nil, app_nil_r. by destruct s.
    + rewrite Hsame. by destruct s.
  - simpl. rewrite list_elem_of_filter. tauto.
  - intros w Hw Hin. simpl. by apply list_elem_of_filter.
  - apply sublist_filter.
Qed.

Lemma removeTag_selectTag_witness :
  let s := run [SelectTag "Work"] initial_state in
  ("Code" ∉ selectedTags s) ∧ removeTag "Code" (selectTag "Code" s) = s.
Proof.
  intros s.
  assert (Hv : "Code" ∉ selectedTags s).
  { intros H. vm_compute in H. apply list_elem_of_singleton in H. discriminate. }
  split; [exact Hv | exact (proj1 (removeTag_selectTag "Code" s) Hv)].
Defined.

(** *** Search *)



(** X15: the case of the letters of the query does not matter: two queries
    that are equal once lowered display the same entries, and so do a
    query and its lowered form. *)
Theorem search_ignores_query_case q1 q2 s :
  (toLowerCase q1 = toLowerCase q2 →
   filteredItems (setSearchQuery q1 s) = filteredItems (setSearchQuery q2 s)) ∧
  filteredItems (setSearchQuery (toLowerCase q1) s)
  = filteredItems (setSearchQuery q1 s).
Proof.
  assert (Heq : ∀ a b, toLowerCase a = toLowerCase b →
            filteredItems (setSearchQuery a s) = filteredItems (setSearchQuery b s)).
  { intros a b Hab. unfold filteredItems, matchesSearch. simpl. by rewrite Hab. }
  split; [apply Heq |]. apply Heq, toLowerCase_idemp.
Qed.

Lemma search_ignores_query_case_witness :
  let s := run [SetText "Hello World"; SaveText 1 1] initial_state in
  toLowerCase "hELLo" = toLowerCase "Hello" ∧
  filteredItems (setSearchQuery "hELLo" s) = filteredItems (setSearchQuery "Hello" s).
Proof.
  intros s.
  assert (Hq : toLowerCase "hELLo" = toLowerCase "Hello") by reflexivity.
  split; [exact Hq | exact (proj1 (search_ignores_query_case "hELLo" "Hello" s) Hq)].
Defined.

(** *** Relative time *)

(** X16: [formatTime] shows the largest unit that has gone by at least
    once: "now" below one minute, a future timestamp included; the whole
    minutes, from 1 to 59, below one hour; the whole hours, from 1 to 23,
    below one day; and the whole days from then on. *)
Theorem formatTime_units now timestamp :
  let diff := now - timestamp in
  (diff < 60000 → formatTime now timestamp = "now") ∧
  (60000 ≤ diff < 3600000 →
     ∃ n, 1 ≤ n ≤ 59 ∧ n * 60000 ≤ diff < (n + 1) * 60000 ∧
          formatTime now timestamp = toString n +:+ "m ago") ∧
  (3600000 ≤ diff < 86400000 →
     ∃ n, 1 ≤ n ≤ 23 ∧ n * 3600000 ≤ diff < (n + 1) * 3600000 ∧
          formatTime now timestamp = toString n +:+ "h ago") ∧
  (86400000 ≤ diff →
     ∃ n, 1 ≤ n ∧ n * 86400000 ≤ diff < (n + 1) * 86400000 ∧
          formatTime now timestamp = toString n +:+ "d ago").
Proof.
  intros diff. unfold formatTime. fold diff.
  pose proof (Z.div_mod diff 60000 ltac:(lia)) as Hm.
  pose proof (Z.mod_pos_bound diff 60000 ltac:(lia)) as Hm'.
  pose proof (Z.div_mod diff 3600000 ltac:(lia)) as Hh.
  pose proof (Z.mod_pos_bound diff 3600000 ltac:(lia)) as Hh'.
  pose proof (Z.div_mod diff 86400000 ltac:(lia)) as Hd.
  pose proof (Z.mod_pos_bound diff 86400000 ltac:(lia)) as Hd'.
  set (m := diff `div` 60000) in *.
  set (h := diff `div` 3600000) in *.
  set (d := diff `div` 86400000) in *.
  split_and!.
  - intros Hlt.
    destruct (Z.ltb_spec 0 d); [lia |].
    destruct (Z.ltb_spec 0 h); [lia |].
    destruct (Z.ltb_spec 0 m); [lia | done].
  - intros Hrange. exists m.
    destruct (Z.ltb_spec 0 d); [lia |].
    destruct (Z.ltb_spec 0 h); [lia |].
    destruct (Z.ltb_spec 0 m); [| lia].
    split_and!; [lia.. | done].
  - intros Hrange. exists h.
    destruct (Z.ltb_spec 0 d); [lia |].
    destruct (Z.ltb_spec 0 h); [| lia].
    split_and!; [lia.. | done].
  - intros Hrange. exists d.
    destruct (Z.ltb_spec 0 d); [| lia].
    split_and!; [lia.. | done].
Qed.

Lemma formatTime_units_witness :
  3600000 ≤ 1700007300000 - 1700000000000 < 86400000 ∧
  ∃ n, 1 ≤ n ≤ 23 ∧
       formatTime 1700007300000 1700000000000 = toString n +:+ "h ago".
Proof.
  assert (Hrange : 3600000 ≤ 1700007300000 - 1700000000000 < 86400000) by lia.
  split; [exact Hrange |].
  destruct (formatTime_units 1700007300000 1700000000000) as (_ & _ & Hhours & _).
  destruct (Hhours Hrange) as (n & Hn & _ & Heq).
  exists n. split; [exact Hn | exact Heq].
Defined.

(** *** Export *)

(** X17: for a timestamp string made of a date without the letter T, then
    T, then the time, the name of the export file is clipboard-export-,
    the date, .json. *)
Theorem exportFileName_date date time :
  (∀ a b, date ≠ a +:+ String "T" b) →
  exportFileName (date +:+ String "T" time) = "clipboard-export-" +:+ date +:+ ".json".
Proof. intros Hdate. unfold exportFileName. by rewrite splitHead_app. Qed.

Lemma exportFileName_date_witness :
  (∀ a b, "2026-11-02" ≠ a +:+ String "T" b) ∧
  exportFileName "2026-11-02T09:30:00.000Z" = "clipboard-export-2026-11-02.json".
Proof.
  assert (Hdate : ∀ a b, "2026-11-02" ≠ a +:+ String "T" b).
  { intros a b H.
    assert (Hinc : includes "2026-11-02" "T" = true)
      by (apply includes_spec; by exists a, b).
    vm_compute in Hinc. discriminate. }
  split; [exact Hdate |].
  exact (exportFileName_date "2026-11-02" "09:30:00.000Z" Hdate).
Defined.

(** *** Loading and saving to storage *)

(** X18: the loader returns a state that differs from the one it started
    from in the entry list, the capacity and the vocabulary at most.  A
    key that is missing or holds the empty string leaves its cell as it
    was, so with nothing stored the state is unchanged; a stored list
    that parses is taken as it is. *)
Theorem load_only_persisted_cells
    (parse_items : string → outcome (list ClipboardItem))
    (parse_tags : string → outcome (list string)) (st : Storage) (s : State) :
  ∃ s', load parse_items parse_tags st s = Returned s' ∧
    (textInput s' = textInput s ∧ searchQuery s' = searchQuery s ∧
     selectedTags s' = selectedTags s ∧ newTag s' = newTag s ∧
     contentType s' = contentType s ∧
     isTagFilterActive s' = isTagFilterActive s) ∧
    (present (clipboard_items st) = None → items s' = items s) ∧
    (present (clipboard_max_items st) = None → maxItems s' = maxItems s) ∧
    (present (clipboard_tags st) = None → allTags s' = allTags s) ∧
    (present (clipboard_items st) = None →
     present (clipboard_max_items st) = None →
     present (clipboard_tags st) = None → s' = s) ∧
    (∀ v l, present (clipboard_items st) = Some v →
            parse_items v = Returned l → items s' = l) ∧
    (∀ v l, present (clipboard_tags st) = Some v →
            parse_tags v = Returned l → allTags s' = l).
Proof.
  unfold load.
  destruct (present (clipboard_items st)) as [v1|];
    [destruct (parse_items v1) eqn:H1 |];
    (destruct (present (clipboard_max_items st)) as [v2|]);
    (destruct (present (clipboard_tags st)) as [v3|];
       [destruct (parse_tags v3) eqn:H3 |]);
    (eexists; split; [reflexivity |]); simpl;
    (split_and!; try done; try congruence;
     by (intros; destruct s)).
Qed.

Lemma load_only_persisted_cells_witness :
  let st := {| clipboard_items := None; clipboard_max_items := Some "";
               clipboard_tags := None |} in
  let s := run [SetText "draft"; SelectTag "Work"] initial_state in
  present (clipboard_items st) = None ∧
  present (clipboard_max_items st) = None ∧
  present (clipboard_tags st) = None ∧
  load parse_fails parse_fails st s = Returned s.
Proof.
  intros st s. split_and!; [reflexivity.. |].
  destruct (load_only_persisted_cells parse_fails parse_fails st s)
    as (s' & Hload & _ & _ & _ & _ & Hsame & _).
  rewrite Hload. f_equal. exact (Hsame eq_refl eq_refl eq_refl).
Defined.

(** X19: leaving the page and opening it again keeps the entries, the
    capacity and the vocabulary, and puts every other cell back to its
    initial value, provided the capacity is NaN or an integer of at most
    2^53 in magnitude, [JSON.parse] reads back what [JSON.stringify]
    wrote for this entry list and this vocabulary, and neither string is
    empty. *)
Theorem persist_mount_round_trip
    (parse_items : string → outcome (list ClipboardItem))
    (parse_tags : string → outcome (list string))
    (stringify_items : list ClipboardItem → string)
    (stringify_tags : list string → string)
    (exponential : Z → string) (s : State) :
  parse_items (stringify_items (items s)) = Returned (items s) →
  parse_tags (stringify_tags (allTags s)) = Returned (allTags s) →
  stringify_items (items s) ≠ "" → stringify_tags (allTags s) ≠ "" →
  maxItems s = NaN ∨ (∃ z, maxItems s = Num z ∧ Z.abs z ≤ 2 ^ 53) →
  mount parse_items parse_tags
    (persist stringify_items stringify_tags exponential s)
  = Returned (setAllTags (allTags s)
                (setMaxItems (maxItems s) (setItems (items s) initial_state))).
Proof.
  intros Hitems Htags Hi Ht Hsafe.
  apply truthy_spec in Hi. apply truthy_spec in Ht.
  unfold mount, load, persist. cbn [clipboard_items clipboard_max_items clipboard_tags].
  rewrite (present_Some _ Hi), (present_Some _ Ht), Hitems, Htags.
  assert (Hmax : ∃ v, present (persistMaxItems exponential s) = Some v ∧
                      parseInt v (Some 10) = maxItems s).
  { unfold persistMaxItems, Number_toString.
    destruct Hsafe as [-> | (z & -> & Hz)]; [by exists "NaN" |].
    exists (toString z).
    change (2 ^ 53) with 9007199254740992 in Hz.
    change (10 ^ 21) with 1000000000000000000000.
    destruct (Z.ltb_spec (Z.abs z) 1000000000000000000000); [| lia].
    split; [apply present_Some, toString_truthy |].
    apply parseInt_toString. change (2 ^ 53) with 9007199254740992. lia. }
  destruct Hmax as (v & -> & Hv). simpl. by rewrite Hv.
Qed.

Lemma persist_mount_round_trip_witness :
  let s := run [ChangeMaxItems "20"; SetText "draft"] initial_state in
  let parse_items := λ _ : string, Returned (items s) in
  let parse_tags := λ _ : string, Returned (allTags s) in
  let stringify_items := λ _ : list ClipboardItem, "[]" in
  let stringify_tags := λ _ : list string, "[...]" in
  (maxItems s = NaN ∨ (∃ z, maxItems s = Num z ∧ Z.abs z ≤ 2 ^ 53)) ∧
  ∃ s', mount parse_items parse_tags
          (persist stringify_items stringify_tags (λ _, "") s)
        = Returned s' ∧
        maxItems s' = Num 20 ∧ textInput s' = "".
Proof.
  intros s parse_items parse_tags stringify_items stringify_tags.
  assert (Hsafe : maxItems s = NaN ∨ (∃ z, maxItems s = Num z ∧ Z.abs z ≤ 2 ^ 53)).
  { right. exists 20. split; [reflexivity |].
    change (2 ^ 53) with 9007199254740992. lia. }
  split; [exact Hsafe |].
  eexists. split.
  - apply (persist_mount_round_trip parse_items parse_tags
             stringify_items stringify_tags (λ _, "") s);
      [reflexivity | reflexivity | discriminate | discriminate | exact Hsafe].
  - split; reflexivity.
Defined.
